(** * ACGN Camerata livestream analytics: file scanner and streamer registry

    A shallow embedding of [src/utils/file_scanner.py] and
    [src/config/streamer_registry.py], and the properties of the two
    components proved over it.

    Layout: [Py] holds the Python values the two classes compute with
    (strings, dicts, parsed JSON, exceptions); [StreamerRegistry] and
    [FileScanner] embed the two classes, method by method, each with the
    vocabulary its properties are stated in.  The facts follow: dicts, the
    registry, the regular expression engine, the scanner. *)

From Stdlib Require Import String Ascii.
From Stdlib Require Import List Bool NArith ZArith Lia.
From Stdlib Require Import Sorting.Sorted Sorting.Permutation.
Import ListNotations.

Set Implicit Arguments.
Set Warnings "-register-all".

(* ================================================================== *)
(** * Python values                                                    *)
(* ================================================================== *)

Module Py.

(** A Python [str] is a sequence of code points; [ord c] is the code point
    itself. *)
Definition char := N.
Definition pystr := list char.

(** ASCII literals of the source, written as Rocq strings. *)
Definition lit (s : string) : pystr :=
  List.map N_of_ascii (list_ascii_of_string s).

(** A character literal of the source. *)
Definition ord (a : ascii) : char := N_of_ascii a.
Arguments ord a%_char.

Definition str_eq_dec : forall a b : pystr, {a = b} + {a <> b} :=
  list_eq_dec N.eq_dec.

(** [a <= b] on [str]: lexicographic on code points, a proper prefix first. *)
Fixpoint str_leb (a b : pystr) : bool :=
  match a, b with
  | [], _ => true
  | _ :: _, [] => false
  | x :: a', y :: b' =>
      if (x <? y)%N then true
      else if (y <? x)%N then false
      else str_leb a' b'
  end.

(** ** Exceptions *)

Inductive exn :=
| FileNotFoundError
| PermissionError        (* any other OSError of open() or stat() *)
| UnicodeDecodeError
| JSONDecodeError
| KeyError
| TypeError
| ValueError
| RecursionError
| IndexError.

Inductive result (A : Type) :=
| Ok (a : A)
| Raise (e : exn).
Arguments Ok {A} a.
Arguments Raise {A} e.

Definition bind {A B} (r : result A) (k : A -> result B) : result B :=
  match r with
  | Ok a => k a
  | Raise e => Raise e
  end.

(** ** Dicts

    A Python dict keeps its keys unique and in insertion order:
    [d[k] = v] replaces the value in place when [k] is present and appends
    the pair otherwise. *)

Section Dict.
Variables K V : Type.
Variable eq_dec : forall a b : K, {a = b} + {a <> b}.

Definition dict := list (K * V).

Fixpoint dict_get (k : K) (d : dict) : option V :=
  match d with
  | [] => None
  | (k', v) :: d' => if eq_dec k k' then Some v else dict_get k d'
  end.

Definition dict_mem (k : K) (d : dict) : bool :=
  match dict_get k d with Some _ => true | None => false end.

Fixpoint dict_set (k : K) (v : V) (d : dict) : dict :=
  match d with
  | [] => [(k, v)]
  | (k', v') :: d' =>
      if eq_dec k k' then (k', v) :: d' else (k', v') :: dict_set k v d'
  end.

Definition dict_keys (d : dict) : list K := List.map fst d.
Definition dict_values (d : dict) : list V := List.map snd d.
End Dict.

Arguments dict_get {K V} eq_dec k d.
Arguments dict_mem {K V} eq_dec k d.
Arguments dict_set {K V} eq_dec k v d.
Arguments dict_keys {K V} d.
Arguments dict_values {K V} d.

(** ** Parsed JSON

    What [json.load] returns: [None], [bool], [int], [str], [list] and
    [dict] with [str] keys.  A [JObj] stands for the dict that [json.load]
    built, so its keys are pairwise different.  Numbers are integers here:
    the registry never computes with a number, and an integer already shows
    how a uid that is not a string behaves. *)

Inductive json :=
| JNull
| JBool (b : bool)
| JInt (n : Z)
| JStr (s : pystr)
| JArr (l : list json)
| JObj (d : list (pystr * json)).

(** [d[k]], [k in d] and [d[k] = v] on a dict with [str] keys. *)
Definition obj := dict pystr json.
Definition obj_get : pystr -> obj -> option json := dict_get str_eq_dec.
Definition obj_mem : pystr -> obj -> bool := dict_mem str_eq_dec.
Definition obj_set : pystr -> json -> obj -> obj := dict_set str_eq_dec.

(** Truthiness of an optional [str] argument: [None] and the empty string
    are falsy. *)
Definition truthy (a : option pystr) : bool :=
  match a with
  | Some (_ :: _) => true
  | _ => false
  end.

End Py.

(* ================================================================== *)
(** * src/config/streamer_registry.py                                  *)
(* ================================================================== *)

Module StreamerRegistry.
Import Py.

(** ** Data model *)

(** The keys of [self._cache].  Python compares dict keys with [==] after
    hashing, and [True == 1], [False == 0]: a bool and the int it equals
    are one key.  The registry never reads a key back (it only tests
    membership, indexes, and lists the values), so a key is kept as its
    equality class. *)
Inductive pykey :=
| KNone
| KInt (n : Z)
| KStr (s : pystr).

Definition key_eq_dec : forall a b : pykey, {a = b} + {a <> b}.
Proof. decide equality; [apply Z.eq_dec | apply str_eq_dec]. Defined.

(** Using a value as a dict key: lists and dicts are unhashable. *)
Definition py_hash (v : json) : result pykey :=
  match v with
  | JNull => Ok KNone
  | JBool b => Ok (KInt (if b then 1 else 0))
  | JInt n => Ok (KInt n)
  | JStr s => Ok (KStr s)
  | JArr _ | JObj _ => Raise TypeError
  end.

(** [StreamerProfile] is a [TypedDict]: at run time a plain dict. *)
Definition StreamerProfile := obj.

Definition cache := dict pykey StreamerProfile.

Definition cache_get : pykey -> cache -> option StreamerProfile :=
  dict_get key_eq_dec.
Definition cache_set : pykey -> StreamerProfile -> cache -> cache :=
  dict_set key_eq_dec.

(** What is at [self.json_path]. *)
Inductive file_state :=
| Missing                 (* open(..., 'r') raises FileNotFoundError *)
| Unreadable              (* open raises another OSError *)
| Undecodable             (* bytes that are not UTF-8 *)
| Malformed               (* text that json.load rejects as not being JSON:
                             JSONDecodeError *)
| Overlong                (* text with an integer literal of more digits
                             than the interpreter converts: json.load
                             raises a plain ValueError *)
| TooDeep                 (* text nested deeper than the interpreter
                             recurses: json.load raises RecursionError *)
| Document (j : json).    (* text that json.load parses to j, such as
                             json.dump(j, f) writes *)

(** The two messages the class prints. *)
Inductive diag :=
| WarnUnrecognised        (* "[Registry] 警告: 配置文件格式无法识别，已重置" *)
| SaveFailed.             (* "[Registry Error] 保存配置失败: ..." *)

(** The registry object together with the part of the world it acts on.
    [writes] counts the calls of [_save_file], successful or not. *)
Record registry := mkRegistry {
  _cache : cache;
  json_file : file_state;
  writes : nat;
  stdout : list diag
}.

(** What the environment answers during one call: the clock, and how an
    attempt to write the file ends. *)
Inductive write_outcome :=
| Written                 (* open and json.dump succeed *)
| OpenFails               (* open(..., 'w') raises: the file is untouched *)
| DumpFails.              (* open truncated the file, json.dump raised *)

Record env := mkEnv {
  now : pystr;            (* datetime.now().strftime("%Y-%m-%d %H:%M:%S") *)
  write : write_outcome
}.

Definition set_cache (c : cache) (st : registry) : registry :=
  mkRegistry c (json_file st) (writes st) (stdout st).

Definition print (m : diag) (st : registry) : registry :=
  mkRegistry (_cache st) (json_file st) (writes st) (stdout st ++ [m]).

(** ** Persistence *)

(** [open(self.json_path, 'r', encoding='utf-8')] and [json.load(f)]. *)
Definition json_load (f : file_state) : result json :=
  match f with
  | Missing => Raise FileNotFoundError
  | Unreadable => Raise PermissionError
  | Undecodable => Raise UnicodeDecodeError
  | Malformed => Raise JSONDecodeError
  | Overlong => Raise ValueError
  | TooDeep => Raise RecursionError
  | Document j => Ok j
  end.

(** [{s['uid']: s for s in streamers}], one element at a time: [s['uid']]
    raises [TypeError] when [s] is not a dict ([str], [list], numbers and
    [None] do not take a [str] index) and [KeyError] when the key is
    missing; storing under an unhashable uid raises [TypeError]. *)
Fixpoint keyed_by_uid (streamers : list json) (acc : cache) : result cache :=
  match streamers with
  | [] => Ok acc
  | s :: rest =>
      match s with
      | JObj p =>
          match obj_get (lit "uid") p with
          | Some u =>
              bind (py_hash u) (fun k => keyed_by_uid rest (cache_set k p acc))
          | None => Raise KeyError
          end
      | _ => Raise TypeError
      end
  end.

(** [isinstance(v, dict) and 'uid' in v] *)
Definition profile_shaped (v : json) : bool :=
  match v with
  | JObj p => obj_mem (lit "uid") p
  | _ => false
  end.

(** The loop of lines 64-68. *)
Definition is_profile_dict (raw_data : list (pystr * json)) : bool :=
  forallb (fun kv => profile_shaped (snd kv)) raw_data.

(** [self._cache = raw_data]: the parsed dict itself becomes the cache.
    It is only reached under [is_profile_dict], where every value is a
    dict. *)
Definition as_cache (raw_data : list (pystr * json)) : cache :=
  flat_map (fun kv => match snd kv with
                      | JObj p => [(KStr (fst kv), p)]
                      | _ => []
                      end) raw_data.

(** The [try] block of [reload]. *)
Definition reload_try (st : registry) : result registry :=
  bind (json_load (json_file st)) (fun raw_data =>
    match raw_data with
    | JObj d =>
        match obj_get (lit "streamers") d with
        | Some (JArr streamers) =>
            (* case A: {"streamers": [ ... ]} *)
            bind (keyed_by_uid streamers []) (fun c => Ok (set_cache c st))
        | Some _ => Ok (set_cache [] st)
        | None =>
            (* case B: { "uid": { ... } } *)
            if is_profile_dict d then Ok (set_cache (as_cache d) st)
            else Ok (set_cache [] (print WarnUnrecognised st))
        end
    | _ => Ok (set_cache [] st)
    end).

(** [except (json.JSONDecodeError, FileNotFoundError)]: any other exception
    leaves [reload]. *)
Definition reload (st : registry) : result registry :=
  match reload_try st with
  | Raise JSONDecodeError | Raise FileNotFoundError => Ok (set_cache [] st)
  | r => r
  end.

(** [_save_file] swallows every exception and prints it. *)
Definition _save_file (e : env) (data : json) (st : registry) : registry :=
  match write e with
  | Written =>
      mkRegistry (_cache st) (Document data) (S (writes st)) (stdout st)
  | OpenFails =>
      mkRegistry (_cache st) (json_file st) (S (writes st))
                 (stdout st ++ [SaveFailed])
  | DumpFails =>
      mkRegistry (_cache st) Malformed (S (writes st))
                 (stdout st ++ [SaveFailed])
  end.

Definition canonical (c : cache) : json :=
  JObj [(lit "streamers", JArr (List.map JObj (dict_values c)))].

Definition save (e : env) (st : registry) : registry :=
  _save_file e (canonical (_cache st)) st.

(** ** Business interface

    [uid] is annotated [str], on which [str(uid)] is the identity. *)

Definition get_streamer (uid : pystr) (st : registry)
  : option StreamerProfile :=
  cache_get (KStr uid) (_cache st).

Definition _default_colors : list pystr :=
  [ lit "#FF6B6B"; lit "#4ECDC4"; lit "#45B7D1"; lit "#96CEB4"; lit "#FFEEAD";
    lit "#D4A5A5"; lit "#9B59B6"; lit "#3498DB"; lit "#E67E22"; lit "#2ECC71" ].

(** [sum(ord(c) for c in uid)] *)
Definition sum_ord (uid : pystr) : N := fold_right N.add 0%N uid.

Definition _pick_random_color (uid : pystr) : result pystr :=
  let hash_val := sum_ord uid in
  let i := (hash_val mod N.of_nat (List.length _default_colors))%N in
  match nth_error _default_colors (N.to_nat i) with
  | Some c => Ok c
  | None => Raise IndexError
  end.

(** [f"主播_{uid}"] *)
Definition default_name (uid : pystr) : pystr :=
  [0x4E3B; 0x64AD; 0x5F]%N ++ uid.

Definition register_new_streamer (e : env) (uid : pystr)
    (name : option pystr) (st : registry)
  : result (StreamerProfile * registry) :=
  let name :=                           (* if not name: name = f"..." *)
    match name with
    | Some (c :: n) => c :: n
    | _ => default_name uid
    end in
  bind (_pick_random_color uid) (fun color =>
    let new_profile : StreamerProfile :=
      [ (lit "name", JStr name);
        (lit "uid", JStr uid);
        (lit "color", JStr color);
        (lit "created_at", JStr (now e)) ] in
    let st := set_cache (cache_set (KStr uid) new_profile (_cache st)) st in
    Ok (new_profile, save e st)).

Definition get_or_register (e : env) (uid : pystr) (name : option pystr)
    (st : registry) : result (StreamerProfile * registry) :=
  match cache_get (KStr uid) (_cache st) with
  | Some p => Ok (p, st)
  | None => register_new_streamer e uid name st
  end.

(** The profile is one object, changed in place: the cache sees the new
    fields under the same key. *)
Definition update_streamer_info (e : env) (uid : pystr)
    (name color : option pystr) (st : registry) : registry :=
  match cache_get (KStr uid) (_cache st) with
  | None => st
  | Some p =>
      let p :=                          (* if name: ...['name'] = name *)
        match name with
        | Some (c :: n) => obj_set (lit "name") (JStr (c :: n)) p
        | _ => p
        end in
      let p :=                          (* if color: ...['color'] = color *)
        match color with
        | Some (c :: n) => obj_set (lit "color") (JStr (c :: n)) p
        | _ => p
        end in
      let changed := truthy name || truthy color in
      if changed
      then save e (set_cache (cache_set (KStr uid) p (_cache st)) st)
      else st
  end.

Definition get_all_streamers (st : registry) : list StreamerProfile :=
  dict_values (_cache st).

(** ** Vocabulary of the properties *)

Definition with_file (f : file_state) (st : registry) : registry :=
  mkRegistry (_cache st) f (writes st) (stdout st).

(** A cache entry filed under the uid its profile carries. *)
Definition own_key (kp : pykey * StreamerProfile) : bool :=
  match obj_get (lit "uid") (snd kp) with
  | Some u =>
      match py_hash u with
      | Ok k => if key_eq_dec k (fst kp) then true else false
      | Raise _ => false
      end
  | None => false
  end.

Definition keyed_by_own_uid (c : cache) : bool := forallb own_key c.

(** The keys of a dict are pairwise different. *)
Fixpoint distinct_keys (c : cache) : bool :=
  match c with
  | [] => true
  | (k, _) :: c' => negb (dict_mem key_eq_dec k c') && distinct_keys c'
  end.

(** A list element the dict comprehension of case A can file: a dict with
    a hashable ['uid']. *)
Definition fileable (s : json) : bool :=
  match s with
  | JObj p =>
      match obj_get (lit "uid") p with
      | Some u => match py_hash u with Ok _ => true | Raise _ => false end
      | None => false
      end
  | _ => false
  end.

(** The cache is a proper dict and every profile sits under its own uid. *)
Definition filed_properly (c : cache) : Prop :=
  distinct_keys c = true /\ keyed_by_own_uid c = true.

(** The contents [reload] answers with an empty cache: no file, text that
    [json.load] rejects with [JSONDecodeError], a loaded value that is not a
    dict, a ["streamers"] entry that is not a list, and a dict without
    ["streamers"] one of whose values is not profile-shaped. *)
Definition unrecognised (f : file_state) : bool :=
  match f with
  | Missing | Malformed => true
  | Unreadable | Undecodable | Overlong | TooDeep => false
  | Document (JObj d) =>
      match obj_get (lit "streamers") d with
      | Some (JArr _) => false
      | Some _ => true
      | None => negb (is_profile_dict d)
      end
  | Document _ => true
  end.

(** [save(); reload()] gives back the uid-to-profile mapping. *)
Definition round_trips (e : env) (st : registry) : Prop :=
  exists st', reload (save e st) = Ok st' /\
    forall k, cache_get k (_cache st') = cache_get k (_cache st).

(** ** Sample documents and states *)

Definition fresh (f : file_state) : registry := mkRegistry [] f 0 [].

Definition at_noon (w : write_outcome) : env :=
  mkEnv (lit "2025-05-01 12:00:00") w.

(** {"streamers": [1]} *)
Definition doc_number_element : json :=
  JObj [(lit "streamers", JArr [JInt 1])].

(** {"streamers": [{"name": "x"}]} *)
Definition doc_uidless_element : json :=
  JObj [(lit "streamers", JArr [JObj [(lit "name", JStr (lit "x"))]])].

(** {"a": {"uid": "b", "name": "x"}} *)
Definition doc_legacy_ab : json :=
  JObj [(lit "a", JObj [(lit "uid", JStr (lit "b"));
                        (lit "name", JStr (lit "x"))])].

Definition cache_legacy_ab : cache :=
  [(KStr (lit "a"), [(lit "uid", JStr (lit "b"));
                     (lit "name", JStr (lit "x"))])].

Definition profile_123 : StreamerProfile :=
  [ (lit "name", JStr (default_name (lit "123")));
    (lit "uid", JStr (lit "123"));
    (lit "color", JStr (lit "#FF6B6B"));
    (lit "created_at", JStr (lit "2025-05-01 12:00:00")) ].

Definition registry_123 : registry :=
  mkRegistry [(KStr (lit "123"), profile_123)] Missing 0 [].

(** ** Construction

    [config_dir] says whether [self.config_root] exists, [makedirs_ok]
    whether [os.makedirs] succeeds when it is tried; its exception is
    passed over.  Without the directory [open(..., 'w')] fails whatever the
    environment would otherwise answer. *)

(** [os.path.exists(self.json_path)] *)
Definition file_exists (f : file_state) : bool :=
  match f with
  | Missing => false
  | _ => true
  end.

(** {"streamers": []} *)
Definition empty_store : json := JObj [(lit "streamers", JArr [])].

Definition _ensure_config_exists (e : env) (config_dir makedirs_ok : bool)
    (st : registry) : registry :=
  let config_dir := if config_dir then true else makedirs_ok in
  if file_exists (json_file st) then st
  else _save_file (if config_dir then e else mkEnv (now e) OpenFails)
                  empty_store st.

(** [StreamerRegistry()], on the file [f]. *)
Definition __init__ (e : env) (config_dir makedirs_ok : bool)
    (f : file_state) : result registry :=
  let self := mkRegistry [] f 0 [] in
  let self := _ensure_config_exists e config_dir makedirs_ok self in
  reload self.

(** ** More vocabulary *)

(** The uid of a list element as a key, when it has one. *)
Definition key_of (s : json) : option (pykey * StreamerProfile) :=
  match s with
  | JObj p =>
      match obj_get (lit "uid") p with
      | Some u =>
          match py_hash u with
          | Ok k => Some (k, p)
          | Raise _ => None
          end
      | None => None
      end
  | _ => None
  end.

(** The last element of the list whose uid is the key [k]. *)
Fixpoint last_filed (k : pykey) (streamers : list json)
  : option StreamerProfile :=
  match streamers with
  | [] => None
  | s :: rest =>
      match last_filed k rest with
      | Some p => Some p
      | None =>
          match key_of s with
          | Some (k', p) => if key_eq_dec k k' then Some p else None
          | None => None
          end
      end
  end.

(** Every profile of the cache has a hashable ['uid']. *)
Definition values_fileable (c : cache) : bool :=
  forallb fileable (List.map JObj (dict_values c)).

End StreamerRegistry.

(* ================================================================== *)
(** * src/utils/file_scanner.py                                        *)
(* ================================================================== *)

Module FileScanner.
Import Py.

Record FileMeta := mkFileMeta {
  file_path : pystr;
  file_name : pystr;
  file_type : pystr;      (* 'log' or 'csv' *)
  uid : pystr;
  date_str : pystr;
  file_size : N
}.

Section Unicode.

(** Both [\d] in a [str] pattern and [int()] go by the interpreter's Unicode
    database: a character of category Nd is a digit and has a decimal value.
    The ASCII part of that table is fixed; the rest depends on the Unicode
    version and is left open. *)
Variable nd_value : char -> option N.

Definition decimal (c : char) : option N :=
  if (c <? 128)%N then
    if ((48 <=? c) && (c <=? 57))%N then Some (c - 48)%N else None
  else nd_value c.

(** ** The fragment of [re] the two patterns are written in *)

Inductive atom :=
| Digit                   (* \d *)
| Chr (c : char).         (* a literal character *)

Inductive item :=
| Group (a : atom) (lo : nat) (hi : option nat)   (* (a{lo,hi}), capturing *)
| Lit (c : char)
| Eos.                                            (* $ *)

Definition ascii_lower (c : char) : char :=
  if ((65 <=? c) && (c <=? 90))%N then (c + 32)%N else c.

(** [re.IGNORECASE] on a [str] pattern, for an ASCII literal [p]: [c]
    matches when its lowercase is the lowercase of [p].  Outside ASCII the
    lowercase of U+0130 is i and that of U+212A is k, and [re] also lets
    U+0131 match i and U+017F match s. *)
Definition ignorecase_eq (p c : char) : bool :=
  let lp := ascii_lower p in
  ((ascii_lower c =? lp)
   || ((lp =? ord "s") && (c =? 0x17F))
   || ((lp =? ord "i") && ((c =? 0x130) || (c =? 0x131)))
   || ((lp =? ord "k") && (c =? 0x212A)))%N.

Definition lit_matches (ignorecase : bool) (p c : char) : bool :=
  if ignorecase then ignorecase_eq p c else (c =? p)%N.

Definition atom_matches (ignorecase : bool) (a : atom) (c : char) : bool :=
  match a with
  | Digit => match decimal c with Some _ => true | None => false end
  | Chr p => lit_matches ignorecase p c
  end.

Definition can_take (hi : option nat) : bool :=
  match hi with
  | Some O => false
  | _ => true
  end.

(** A greedy repetition with backtracking: take one more character when
    allowed, and fall back to stopping here when the rest of the pattern
    fails after that. *)
Fixpoint match_rep (ignorecase : bool) (a : atom) (lo : nat) (hi : option nat)
    (s acc : pystr) (k : pystr -> pystr -> option (list pystr)) {struct s}
  : option (list pystr) :=
  let stop := match lo with O => k acc s | S _ => None end in
  match s with
  | [] => stop
  | c :: s' =>
      if atom_matches ignorecase a c && can_take hi then
        match match_rep ignorecase a (pred lo) (option_map pred hi) s'
                        (acc ++ [c]) k with
        | Some groups => Some groups
        | None => stop
        end
      else stop
  end.

(** [$] matches at the end of the string and just before a line feed that
    ends the string. *)
Definition at_end (s : pystr) : bool :=
  match s with
  | [] => true
  | [c] => (c =? 10)%N
  | _ => false
  end.

Fixpoint match_items (ignorecase : bool) (p : list item) (s : pystr)
    (groups : list pystr) {struct p} : option (list pystr) :=
  match p with
  | [] => Some groups
  | Group a lo hi :: p' =>
      match_rep ignorecase a lo hi s []
        (fun g rest => match_items ignorecase p' rest (groups ++ [g]))
  | Lit c :: p' =>
      match s with
      | x :: rest =>
          if lit_matches ignorecase c x
          then match_items ignorecase p' rest groups
          else None
      | [] => None
      end
  | Eos :: p' =>
      if at_end s then match_items ignorecase p' s groups else None
  end.

(** [pattern.match(s)] followed by [.groups()].  [match] only tries
    position 0, where the leading [^] of both patterns holds. *)
Definition re_match (ignorecase : bool) (p : list item) (s : pystr)
  : option (list pystr) :=
  match_items ignorecase p s [].

(** r'^(\d+)_(\d{4})-(\d{1,2})-(\d{1,2})\.log$', re.IGNORECASE *)
Definition LOG_PATTERN : list item :=
  [ Group Digit 1 None; Lit (ord "_");
    Group Digit 4 (Some 4); Lit (ord "-");
    Group Digit 1 (Some 2); Lit (ord "-");
    Group Digit 1 (Some 2); Lit (ord ".");
    Lit (ord "l"); Lit (ord "o"); Lit (ord "g"); Eos ].

(** r'^(\d+)_(\d{4})-(\d{1,2})\.csv$', re.IGNORECASE *)
Definition CSV_PATTERN : list item :=
  [ Group Digit 1 None; Lit (ord "_");
    Group Digit 4 (Some 4); Lit (ord "-");
    Group Digit 1 (Some 2); Lit (ord ".");
    Lit (ord "c"); Lit (ord "s"); Lit (ord "v"); Eos ].

(** ** [int(s)] and [f"{n:02d}"] *)

Fixpoint int_digits (s : pystr) (acc : N) : option N :=
  match s with
  | [] => Some acc
  | c :: s' =>
      match decimal c with
      | Some d => int_digits s' (10 * acc + d)%N
      | None => None
      end
  end.

(** [int] on a string of digits; signs, blanks and underscores do not occur
    in what [\d{1,2}] captured. *)
Definition py_int (s : pystr) : result N :=
  match s with
  | [] => Raise ValueError
  | _ =>
      match int_digits s 0 with
      | Some n => Ok n
      | None => Raise ValueError
      end
  end.

Fixpoint uint_chars (u : Decimal.uint) : pystr :=
  match u with
  | Decimal.Nil => []
  | Decimal.D0 u => ord "0" :: uint_chars u
  | Decimal.D1 u => ord "1" :: uint_chars u
  | Decimal.D2 u => ord "2" :: uint_chars u
  | Decimal.D3 u => ord "3" :: uint_chars u
  | Decimal.D4 u => ord "4" :: uint_chars u
  | Decimal.D5 u => ord "5" :: uint_chars u
  | Decimal.D6 u => ord "6" :: uint_chars u
  | Decimal.D7 u => ord "7" :: uint_chars u
  | Decimal.D8 u => ord "8" :: uint_chars u
  | Decimal.D9 u => ord "9" :: uint_chars u
  end.

Definition format_02d (n : N) : pystr :=
  let s := uint_chars (N.to_uint n) in
  match s with
  | [d] => [ord "0"; d]
  | _ => s
  end.

(** ** Paths (posixpath) *)

Definition sep : char := ord "/".

Fixpoint basename (p : pystr) : pystr :=
  match p with
  | [] => []
  | c :: p' =>
      if existsb (N.eqb sep) p' then basename p'
      else if (c =? sep)%N then p'
      else p
  end.

Definition join (a b : pystr) : pystr :=
  match b with
  | c :: _ =>
      if (c =? sep)%N then b
      else match a with
           | [] => b
           | _ => if (last a 0 =? sep)%N then a ++ b else a ++ sep :: b
           end
  | [] =>
      match a with
      | [] => []
      | _ => if (last a 0 =? sep)%N then a else a ++ [sep]
      end
  end.

(** ** [_parse_file]

    [getsize] is what [os.path.getsize(file_path)] answers: the size, or the
    [OSError] of the failed [stat]. *)
Definition _parse_file (file_path : pystr) (getsize : result N)
  : result (option FileMeta) :=
  let filename := basename file_path in
  bind getsize (fun file_size =>
    match re_match true LOG_PATTERN filename with
    | Some groups =>
        match groups with
        | [uid; year; month; day] =>
            bind (py_int month) (fun m =>
            bind (py_int day) (fun d =>
              let date_str :=
                year ++ [ord "-"] ++ format_02d m ++ [ord "-"] ++ format_02d d in
              Ok (Some (mkFileMeta file_path filename (lit "log") uid
                                   date_str file_size))))
        | _ => Raise ValueError
        end
    | None =>
        match re_match true CSV_PATTERN filename with
        | Some groups =>
            match groups with
            | [uid; year; month] =>
                bind (py_int month) (fun m =>
                  let date_str := year ++ [ord "-"] ++ format_02d m in
                  Ok (Some (mkFileMeta file_path filename (lit "csv") uid
                                       date_str file_size)))
            | _ => Raise ValueError
            end
        | None => Ok None
        end
    end).

(** ** The file system under [target_path] *)

Inductive node :=
| File (getsize : result N)
      (* a regular file (or a link to one) with the size [stat] gives, or
         a name [stat] cannot reach, such as a dangling link *)
| Special (size : N)
      (* what [stat] reaches and is neither a regular file nor a directory:
         a pipe, a socket, a device *)
| Dir (listable : bool) (entries : list (pystr * node)).
      (* [listable = false]: [scandir] fails, or a link [os.walk] does not
         follow; [os.walk] passes over both in silence *)

(** The files [os.walk] visits, in its order, each with its [full_path] and
    the answer [getsize] will give: the non-directories of a directory
    first, then its sub-directories in turn. *)
Fixpoint walk (root : pystr) (n : node) : list (pystr * result N) :=
  match n with
  | File _ | Special _ => []
  | Dir false _ => []
  | Dir true entries =>
      flat_map (fun e => match snd e with
                         | File sz => [(join root (fst e), sz)]
                         | Special sz => [(join root (fst e), Ok sz)]
                         | Dir _ _ => []
                         end) entries
      ++ (fix subdirs (es : list (pystr * node)) :=
            match es with
            | [] => []
            | (name, d) :: es' => walk (join root name) d ++ subdirs es'
            end) entries
  end.

(** The body of the two loops: [meta = cls._parse_file(full_path)], and
    [results.append(meta)] when there is one. *)
Fixpoint parse_all (visits : list (pystr * result N))
    (results : list FileMeta) : result (list FileMeta) :=
  match visits with
  | [] => Ok results
  | (full_path, sz) :: rest =>
      bind (_parse_file full_path sz) (fun meta =>
        parse_all rest (match meta with
                        | Some m => results ++ [m]
                        | None => results
                        end))
  end.

(** [results.sort(key=lambda x: x['file_name'])]: a stable sort. *)
Fixpoint insert_by_name (m : FileMeta) (l : list FileMeta) : list FileMeta :=
  match l with
  | [] => [m]
  | x :: l' =>
      if str_leb (file_name m) (file_name x) then m :: l
      else x :: insert_by_name m l'
  end.

Definition sort_by_name (l : list FileMeta) : list FileMeta :=
  fold_right insert_by_name [] l.

(** [target = None]: nothing at [target_path].  A target [stat] cannot
    reach does not exist for [os.path.exists]; one that is neither a regular
    file nor a directory passes both tests and leaves [results] empty. *)
Definition scan (target_path : pystr) (target : option node)
  : result (list FileMeta) :=
  match target with
  | None | Some (File (Raise _)) => Ok []
  | Some (Special _) => Ok (sort_by_name [])
  | Some (File (Ok sz)) =>
      bind (_parse_file target_path (Ok sz)) (fun meta =>
        Ok (sort_by_name (match meta with Some m => [m] | None => [] end)))
  | Some (Dir l entries) =>
      bind (parse_all (walk target_path (Dir l entries)) []) (fun results =>
        Ok (sort_by_name results))
  end.

(** ** Vocabulary of the properties *)

(** [n] repetitions are allowed by the upper bound. *)
Definition within (hi : option nat) (n : nat) : Prop :=
  match hi with
  | Some h => (n <= h)%nat
  | None => True
  end.

(** A repetition of [a] cannot go on into [rest]. *)
Definition stops_at (ignorecase : bool) (a : atom) (rest : pystr) : Prop :=
  match rest with
  | [] => True
  | c :: _ => atom_matches ignorecase a c = false
  end.

Definition is_digit (c : char) : bool :=
  match decimal c with Some _ => true | None => false end.

Definition digits (s : pystr) : bool := forallb is_digit s.

Definition ascii_digit (c : char) : bool := ((48 <=? c) && (c <=? 57))%N.

Definition ascii_digits (s : pystr) : bool := forallb ascii_digit s.

(** One or two characters: [M|MM], [D|DD]. *)
Definition one_or_two (s : pystr) : bool :=
  match s with
  | [_] | [_; _] => true
  | _ => false
  end.

(** Zero-padded to two digits. *)
Definition pad2 (s : pystr) : pystr :=
  match s with
  | [d] => [ord "0"; d]
  | _ => s
  end.

(** [s] is [p] up to the case of its letters, as [re.IGNORECASE] sees it. *)
Fixpoint same_ignoring_case (p s : pystr) : bool :=
  match p, s with
  | [], [] => true
  | c :: p', x :: s' => ignorecase_eq c x && same_ignoring_case p' s'
  | _, _ => false
  end.

(** The two filename grammars of the specification:
    <digits>_<YYYY>-<M|MM>-<D|DD>.log and <digits>_<YYYY>-<M|MM>.csv *)
Definition log_name (uid year month day ext : pystr) : pystr :=
  uid ++ ord "_" :: year ++ ord "-" :: month ++ ord "-" :: day
      ++ ord "." :: ext.

Definition csv_name (uid year month ext : pystr) : pystr :=
  uid ++ ord "_" :: year ++ ord "-" :: month ++ ord "." :: ext.

(** The file name grammars with their side conditions. *)
Definition log_grammar (s : pystr) : Prop :=
  exists uid year month day ext,
    s = log_name uid year month day ext /\
    digits uid = true /\ uid <> [] /\
    digits year = true /\ List.length year = 4%nat /\
    digits month = true /\ one_or_two month = true /\
    digits day = true /\ one_or_two day = true /\
    same_ignoring_case (lit "log") ext = true.

Definition csv_grammar (s : pystr) : Prop :=
  exists uid year month ext,
    s = csv_name uid year month ext /\
    digits uid = true /\ uid <> [] /\
    digits year = true /\ List.length year = 4%nat /\
    digits month = true /\ one_or_two month = true /\
    same_ignoring_case (lit "csv") ext = true.

Definition ends_with_line_feed (s : pystr) : Prop :=
  exists s', s = s' ++ [10%N].

(** A line feed, or nothing: what [$] lets follow the extension. *)
Definition feed_or_nothing (nl : pystr) : bool :=
  match nl with
  | [] => true
  | [c] => (c =? 10)%N
  | _ => false
  end.

(** The record [_parse_file] makes of one visited file, if any. *)
Definition record_of (visit : pystr * result N) : list FileMeta :=
  match _parse_file (fst visit) (snd visit) with
  | Ok (Some m) => [m]
  | _ => []
  end.

Definition records (visits : list (pystr * result N)) : list FileMeta :=
  flat_map record_of visits.

Definition stattable (visit : pystr * result N) : bool :=
  match snd visit with Ok _ => true | Raise _ => false end.

(** The loops and the final sort of [scan], over the files in the order
    they are visited. *)
Definition scan_visits (visits : list (pystr * result N))
  : result (list FileMeta) :=
  bind (parse_all visits []) (fun results => Ok (sort_by_name results)).

Definition name_le (a b : FileMeta) : Prop :=
  str_leb (file_name a) (file_name b) = true.

End Unicode.


(** ** [group_by_uid] *)

Definition groups := dict pystr (list FileMeta).

(** One turn of the loop: [if uid not in grouped: grouped[uid] = []], then
    [grouped[uid].append(item)]; the list is one object, changed in
    place. *)
Definition group_item (grouped : groups) (item : FileMeta) : result groups :=
  let uid := uid item in
  let grouped :=
    if dict_mem str_eq_dec uid grouped then grouped
    else dict_set str_eq_dec uid [] grouped in
  match dict_get str_eq_dec uid grouped with
  | Some l => Ok (dict_set str_eq_dec uid (l ++ [item]) grouped)
  | None => Raise KeyError
  end.

Fixpoint group_items (file_list : list FileMeta) (grouped : groups)
  : result groups :=
  match file_list with
  | [] => Ok grouped
  | item :: rest => bind (group_item grouped item) (group_items rest)
  end.

Definition group_by_uid (file_list : list FileMeta) : result groups :=
  group_items file_list [].

(** The records of one uid, in their order. *)
Definition with_uid (u : pystr) (l : list FileMeta) : list FileMeta :=
  filter (fun m => if str_eq_dec (uid m) u then true else false) l.

(** The records of one file name, in their order. *)
Definition with_name (n : pystr) (l : list FileMeta) : list FileMeta :=
  filter (fun m => if str_eq_dec (file_name m) n then true else false) l.

(** The different strings of a list, each at its first occurrence. *)
Definition first_seen (l : list pystr) : list pystr :=
  fold_left (fun seen u => if in_dec str_eq_dec u seen then seen
                           else seen ++ [u]) l [].

(** What a lookup in the grouping should answer: the records of that uid,
    or nothing when there are none. *)
Definition group_of (u : pystr) (l : list FileMeta)
  : option (list FileMeta) :=
  match with_uid u l with
  | [] => None
  | g => Some g
  end.

(** What the loop keeps true of [grouped], for the records [done] so far:
    a lookup gives the records of that uid in their order; the keys are the
    uids in the order they were first seen; the groups together hold the
    records seen. *)
Definition groups_of (done : list FileMeta) (g : groups) : Prop :=
  (forall u, dict_get str_eq_dec u g = group_of u done) /\
  dict_keys g = first_seen (List.map uid done) /\
  Permutation (concat (dict_values g)) done.

(** ** Sample trees *)

(** data/: 123_2025-5-1.log, README.txt, 9_2024-12.csv *)
Definition tree_three : node :=
  Dir true [ (lit "123_2025-5-1.log", File (Ok 40%N));
             (lit "README.txt", File (Ok 7%N));
             (lit "9_2024-12.csv", File (Ok 12%N)) ].

(** data/: 123_2025-5-1.log and a dangling link notes.txt *)
Definition tree_dangling : node :=
  Dir true [ (lit "123_2025-5-1.log", File (Ok 40%N));
             (lit "notes.txt", File (Raise FileNotFoundError)) ].

(** data/: b/5_2025-1-1.log and a/5_2025-1-1.log, listed in that order *)
Definition tree_twins : node :=
  Dir true [ (lit "b", Dir true [ (lit "5_2025-1-1.log", File (Ok 2%N)) ]);
             (lit "a", Dir true [ (lit "5_2025-1-1.log", File (Ok 1%N)) ]) ].

(** The same directory, listed the other way round: a/ before b/. *)
Definition tree_twins_swapped : node :=
  Dir true [ (lit "a", Dir true [ (lit "5_2025-1-1.log", File (Ok 1%N)) ]);
             (lit "b", Dir true [ (lit "5_2025-1-1.log", File (Ok 2%N)) ]) ].

(** The table with no digits outside ASCII. *)
Definition ascii_only : char -> option N := fun _ => None.

End FileScanner.

(* ================================================================== *)
(** * Facts about dicts                                                *)
(* ================================================================== *)

Section DictFacts.
Import Py.
Variables K V : Type.
Variable eq_dec : forall a b : K, {a = b} + {a <> b}.

Local Abbreviation get := (dict_get eq_dec).
Local Abbreviation set := (dict_set eq_dec).
Local Abbreviation mem := (dict_mem eq_dec).

Lemma dict_get_set_same (k : K) (v : V) d : get k (set k v d) = Some v.
Proof.
  induction d as [|[k' v'] d IH]; simpl.
  - destruct (eq_dec k k); congruence.
  - destruct (eq_dec k k') as [->|Hne]; simpl.
    + destruct (eq_dec k' k'); congruence.
    + destruct (eq_dec k k'); congruence.
Qed.

Lemma dict_get_set_other (k k' : K) (v : V) d :
  k' <> k -> get k' (set k v d) = get k' d.
Proof.
  intros Hne. induction d as [|[k0 v0] d IH]; simpl.
  - destruct (eq_dec k' k); congruence.
  - destruct (eq_dec k k0) as [->|Hk]; simpl.
    + destruct (eq_dec k' k0); congruence.
    + destruct (eq_dec k' k0); congruence.
Qed.

Lemma dict_set_get_id (k : K) (v : V) d : get k d = Some v -> set k v d = d.
Proof.
  induction d as [|[k' v'] d IH]; simpl; [discriminate|].
  destruct (eq_dec k k') as [->|Hne]; intros H.
  - congruence.
  - now rewrite IH.
Qed.

Lemma dict_mem_In (k : K) (d : dict K V) :
  mem k d = true <-> In k (dict_keys d).
Proof.
  unfold dict_mem. induction d as [|[k' v'] d IH]; simpl.
  - split; [discriminate | tauto].
  - destruct (eq_dec k k') as [->|Hne].
    + split; auto.
    + rewrite IH. split; [tauto | intros [E|H]; congruence].
Qed.

Lemma dict_set_fresh (k : K) (v : V) d :
  mem k d = false -> set k v d = d ++ [(k, v)].
Proof.
  unfold dict_mem.
  induction d as [|[k' v'] d IH]; simpl; intros H; [reflexivity|].
  destruct (eq_dec k k') as [->|Hne]; [discriminate|].
  now rewrite IH.
Qed.

Lemma dict_keys_set (k : K) (v : V) d :
  dict_keys (set k v d) =
  if mem k d then dict_keys d else dict_keys d ++ [k].
Proof.
  unfold dict_mem, dict_keys.
  induction d as [|[k' v'] d IH]; simpl; [reflexivity|].
  destruct (eq_dec k k') as [->|Hne]; simpl; [reflexivity|].
  rewrite IH. now destruct (get k d).
Qed.

Lemma dict_mem_set (k k' : K) (v : V) d :
  mem k' (set k v d) = if eq_dec k' k then true else mem k' d.
Proof.
  unfold dict_mem. destruct (eq_dec k' k) as [->|Hne].
  - now rewrite dict_get_set_same.
  - now rewrite dict_get_set_other.
Qed.

Lemma dict_mem_app (k : K) (d1 d2 : dict K V) :
  mem k (d1 ++ d2) = mem k d1 || mem k d2.
Proof.
  unfold dict_mem. induction d1 as [|[k' v'] d1 IH]; simpl; [reflexivity|].
  destruct (eq_dec k k'); [reflexivity | exact IH].
Qed.
End DictFacts.

(* ================================================================== *)
(** * The streamer registry                                            *)
(* ================================================================== *)

Section RegistryFacts.
Import Py StreamerRegistry.

Lemma obj_get_head (k : pystr) (v : json) (d : obj) :
  obj_get k ((k, v) :: d) = Some v.
Proof.
  unfold obj_get; simpl. destruct (str_eq_dec k k); congruence.
Qed.

Lemma registry_eta (st : registry) :
  mkRegistry (_cache st) (json_file st) (writes st) (stdout st) = st.
Proof. now destruct st. Qed.

(** ** [reload] *)

(** What [reload] does with a parsed document. *)
Lemma reload_document (st : registry) (j : json) :
  json_file st = Document j ->
  reload st =
  match j with
  | JObj d =>
      match obj_get (lit "streamers") d with
      | Some (JArr streamers) =>
          bind (keyed_by_uid streamers []) (fun c => Ok (set_cache c st))
      | Some _ => Ok (set_cache [] st)
      | None =>
          if is_profile_dict d then Ok (set_cache (as_cache d) st)
          else Ok (set_cache [] (print WarnUnrecognised st))
      end
  | _ => Ok (set_cache [] st)
  end.
Proof.
  intros Hf. unfold reload, reload_try. rewrite Hf. simpl.
  destruct j as [| | | | |d]; try reflexivity.
  destruct (obj_get (lit "streamers") d) as [[| | | |l|]|]; try reflexivity.
  - assert (Hk : forall l acc,
               keyed_by_uid l acc <> Raise JSONDecodeError /\
               keyed_by_uid l acc <> Raise FileNotFoundError).
    { clear. induction l as [|s l IH]; intros acc; simpl.
      - split; discriminate.
      - destruct s as [| | | | |p]; try (split; discriminate).
        destruct (obj_get (lit "uid") p) as [u|]; [|split; discriminate].
        destruct u; simpl; try (split; discriminate); apply IH. }
    destruct (Hk l []) as [H1 H2].
    destruct (keyed_by_uid l []) as [c|[]]; simpl; congruence.
  - now destruct (is_profile_dict d).
Qed.

(** X20: what [reload] handles and what it does not.  When [open] raises
    [FileNotFoundError], when [json.load] raises [JSONDecodeError], and when
    [json.load] returns a value that is no dict, a dict whose ["streamers"]
    is no list, or a flat map with a value that is not profile-shaped, the
    cache becomes empty and nothing is raised.  Every other exception of
    [open] or [json.load] leaves [reload]: the [OSError] of a file that
    cannot be read, [UnicodeDecodeError], the [ValueError] of an integer
    literal too long to convert, [RecursionError]. *)
Lemma reload_unrecognised_resets (st : registry) :
  (unrecognised (json_file st) = true ->
   exists st', reload st = Ok st' /\ _cache st' = []) /\
  (forall e, json_load (json_file st) = Raise e ->
     e <> JSONDecodeError -> e <> FileNotFoundError ->
     reload st = Raise e).
Proof.
  split.
  2:{ intros e He H1 H2. unfold reload, reload_try. rewrite He. simpl.
      destruct e; congruence. }
  intros H. destruct (json_file st) as [| | | | | |j] eqn:Hf; simpl in H;
    try discriminate.
  - exists (set_cache [] st). unfold reload, reload_try. now rewrite Hf.
  - exists (set_cache [] st). unfold reload, reload_try. now rewrite Hf.
  - rewrite (reload_document st Hf).
    destruct j as [| | | | |d]; try (now eexists; split; [reflexivity|]).
    destruct (obj_get (lit "streamers") d) as [[| | | |l|]|];
      try discriminate; try (now eexists; split; [reflexivity|]).
    destruct (is_profile_dict d); [discriminate|].
    now eexists; split; [reflexivity|].
Qed.

(** In general: the first element of the ["streamers"] list that is not a
    profile-shaped object makes [reload] raise, [TypeError] when it is not a
    dict and [KeyError] when it is a dict without ['uid']. *)
Lemma keyed_by_uid_unshaped (before after : list json) (s : json) :
  forall acc,
  forallb fileable before = true ->
  profile_shaped s = false ->
  keyed_by_uid (before ++ s :: after) acc =
    Raise (match s with JObj _ => KeyError | _ => TypeError end).
Proof.
  induction before as [|b before IH]; intros acc Hb Hs; simpl.
  - destruct s as [| | | | |p]; try reflexivity.
    simpl in Hs. unfold obj_mem, dict_mem in Hs. unfold obj_get.
    now destruct (dict_get str_eq_dec (lit "uid") p).
  - simpl in Hb. apply andb_true_iff in Hb as [Hb Hrest].
    destruct b as [| | | | |p]; try discriminate. simpl in Hb.
    destruct (obj_get (lit "uid") p) as [u|]; [|discriminate].
    destruct (py_hash u) as [k|]; [|discriminate]. simpl.
    now apply IH.
Qed.

(** X21: in a canonical document the first element of the ["streamers"]
    list that is not a dict with ['uid'] makes [reload] raise, [TypeError]
    when it is not a dict and [KeyError] when it is a dict without ['uid'],
    however many well-formed elements come before or after it. *)
Lemma reload_raises_on_first_unshaped (st : registry)
    (d : list (pystr * json)) (before after : list json) (s : json) :
  json_file st = Document (JObj d) ->
  obj_get (lit "streamers") d = Some (JArr (before ++ s :: after)) ->
  forallb fileable before = true ->
  profile_shaped s = false ->
  reload st = Raise (match s with JObj _ => KeyError | _ => TypeError end).
Proof.
  intros Hf Hs Hb Hsh. rewrite (reload_document st Hf), Hs.
  rewrite keyed_by_uid_unshaped by assumption. reflexivity.
Qed.

(** C1 (the code departs from it): a ["streamers"] list with an element that
    is not a profile-shaped object is neither a canonical document nor a
    legacy flat-map, and the claim has [reload] empty the cache and return.
    The dict comprehension of case A indexes every element with ['uid']
    unchecked: on [{"streamers": [1]}] it raises [TypeError], on
    [{"streamers": [{"name": "x"}]}] it raises [KeyError], and neither is
    among the two exceptions [reload] catches. *)
Theorem reload_raises_on_unshaped_element (st : registry) :
  reload (with_file (Document doc_number_element) st) = Raise TypeError /\
  reload (with_file (Document doc_uidless_element) st) = Raise KeyError.
Proof. split; reflexivity. Qed.

(** ** [save] then [reload] *)

Lemma distinct_keys_NoDup (c : cache) :
  distinct_keys c = true <-> NoDup (dict_keys c).
Proof.
  induction c as [|[k p] c IH]; simpl.
  - split; [constructor | reflexivity].
  - rewrite andb_true_iff, negb_true_iff, IH. split.
    + intros [Hm Hn]. constructor; [|exact Hn].
      intros HI. apply (dict_mem_In key_eq_dec) in HI. congruence.
    + intros Hn. inversion Hn as [|? ? Hk Hn']; subst. split; [|exact Hn'].
      destruct (dict_mem key_eq_dec k c) eqn:E; [|reflexivity].
      apply (dict_mem_In key_eq_dec) in E. contradiction.
Qed.

Lemma own_key_hash (k : pykey) (p : StreamerProfile) :
  own_key (k, p) = true ->
  exists u, obj_get (lit "uid") p = Some u /\ py_hash u = Ok k.
Proof.
  unfold own_key; simpl.
  destruct (obj_get (lit "uid") p) as [u|] eqn:Hu; [|discriminate].
  destruct (py_hash u) as [k'|] eqn:Hh; [|discriminate].
  destruct (key_eq_dec k' k) as [->|]; [|discriminate].
  intros _. now exists u.
Qed.

(** Re-keying the values of a cache by their uid rebuilds the cache, entry
    by entry, when every entry is filed under its own uid. *)
Lemma keyed_by_uid_values (c acc : cache) :
  keyed_by_own_uid c = true ->
  NoDup (dict_keys (acc ++ c)) ->
  keyed_by_uid (List.map JObj (dict_values c)) acc = Ok (acc ++ c).
Proof.
  revert acc. induction c as [|[k p] c IH]; intros acc Hown Hnd; simpl.
  - now rewrite app_nil_r.
  - simpl in Hown. apply andb_true_iff in Hown as [Hk Hown].
    destruct (own_key_hash _ _ Hk) as (u & Hu & Hh).
    rewrite Hu, Hh. simpl.
    assert (Hfresh : dict_mem key_eq_dec k acc = false).
    { destruct (dict_mem key_eq_dec k acc) eqn:E; [|reflexivity].
      apply (dict_mem_In key_eq_dec) in E.
      unfold dict_keys in Hnd. rewrite map_app in Hnd. simpl in Hnd.
      apply NoDup_remove_2 in Hnd. exfalso. apply Hnd.
      apply in_or_app. now left. }
    unfold cache_set. rewrite (dict_set_fresh key_eq_dec _ _ _ Hfresh).
    rewrite IH; [now rewrite <- app_assoc | exact Hown |].
    now rewrite <- app_assoc.
Qed.

Lemma save_written (e : env) (st : registry) :
  write e = Written ->
  save e st = mkRegistry (_cache st) (Document (canonical (_cache st)))
                         (S (writes st)) (stdout st).
Proof. intros H. unfold save, _save_file. now rewrite H. Qed.

(** C2 (as the code has it): when the write succeeds and every entry of the
    cache is filed under the uid its profile carries, [save] followed by
    [reload] yields the same cache, entry for entry and in the same order. *)
Theorem save_reload_round_trip (e : env) (st : registry) :
  write e = Written ->
  distinct_keys (_cache st) = true ->
  keyed_by_own_uid (_cache st) = true ->
  exists st', reload (save e st) = Ok st' /\ _cache st' = _cache st /\
              round_trips e st.
Proof.
  intros Hw Hd Hown.
  assert (Hr : reload (save e st) = Ok (save e st)).
  { rewrite (reload_document (save e st) (j := canonical (_cache st)))
      by (now rewrite save_written).
    unfold canonical. rewrite obj_get_head.
    rewrite (keyed_by_uid_values (_cache st) []); simpl;
      [| exact Hown | now apply distinct_keys_NoDup].
    rewrite save_written by exact Hw. reflexivity. }
  exists (save e st). split; [exact Hr|].
  assert (Hc : _cache (save e st) = _cache st)
    by (now rewrite save_written).
  split; [exact Hc|].
  exists (save e st). split; [exact Hr|]. intros k. now rewrite Hc.
Qed.

Lemma save_reload_round_trip_witness :
  exists st', reload (save (at_noon Written) registry_123) = Ok st' /\
    _cache st' = _cache registry_123 /\
    round_trips (at_noon Written) registry_123.
Proof.
  apply (save_reload_round_trip (at_noon Written) registry_123);
    reflexivity.
Defined.

(** C2 (as stated, refuted): the legacy flat-map [{"a": {"uid": "b", ...}}]
    loads as a cache with the key [a]; after [save] and [reload] the profile
    sits under [b] and the key [a] is gone. *)
Lemma save_reload_rekeys_legacy_cache :
  reload (fresh (Document doc_legacy_ab))
    = Ok (mkRegistry cache_legacy_ab (Document doc_legacy_ab) 0 []) /\
  ~ round_trips (at_noon Written)
      (mkRegistry cache_legacy_ab (Document doc_legacy_ab) 0 []).
Proof.
  split; [reflexivity|].
  intros (st' & Hr & Hk). vm_compute in Hr. injection Hr as <-.
  specialize (Hk (KStr (lit "a"))). vm_compute in Hk. discriminate.
Qed.

(** ** Colours *)

Lemma _pick_random_color_index (uid : pystr) :
  exists c,
    nth_error _default_colors (N.to_nat (sum_ord uid mod 10)) = Some c /\
    _pick_random_color uid = Ok c.
Proof.
  unfold _pick_random_color.
  change (N.of_nat (List.length _default_colors)) with 10%N.
  destruct (nth_error _default_colors (N.to_nat (sum_ord uid mod 10)))
    as [c|] eqn:E.
  - now exists c.
  - exfalso. apply nth_error_None in E.
    change (List.length _default_colors) with 10%nat in E.
    pose proof (N.mod_upper_bound (sum_ord uid) 10). lia.
Qed.

(** C6: the palette is the fixed list of ten colours, in this order; the
    hash of a uid is the sum of its character codes (nothing for the empty
    string, and the code of the first character more than the sum of the
    rest); the colour of a uid is the palette entry at index (that sum) mod
    10, which always exists; the profile made at registration carries that
    colour, whatever the clock, the name and the registry are; and uids with
    equal sums get equal colours. *)
Theorem color_is_palette_entry (uid : pystr) :
  _default_colors =
    [ lit "#FF6B6B"; lit "#4ECDC4"; lit "#45B7D1"; lit "#96CEB4";
      lit "#FFEEAD"; lit "#D4A5A5"; lit "#9B59B6"; lit "#3498DB";
      lit "#E67E22"; lit "#2ECC71" ] /\
  sum_ord [] = 0%N /\
  (forall c s, sum_ord (c :: s) = (c + sum_ord s)%N) /\
  exists c,
    nth_error
      [ lit "#FF6B6B"; lit "#4ECDC4"; lit "#45B7D1"; lit "#96CEB4";
        lit "#FFEEAD"; lit "#D4A5A5"; lit "#9B59B6"; lit "#3498DB";
        lit "#E67E22"; lit "#2ECC71" ]
      (N.to_nat (sum_ord uid mod 10)) = Some c /\
    _pick_random_color uid = Ok c /\
    (forall e name st, exists p st',
        register_new_streamer e uid name st = Ok (p, st') /\
        obj_get (lit "color") p = Some (JStr c)) /\
    (forall uid', sum_ord uid' = sum_ord uid ->
        _pick_random_color uid' = Ok c).
Proof.
  split; [reflexivity|]. split; [reflexivity|]. split; [reflexivity|].
  destruct (_pick_random_color_index uid) as (c & Hn & Hc).
  exists c. repeat split; try assumption.
  - intros e name st. unfold register_new_streamer. rewrite Hc. simpl.
    eexists; eexists; split; reflexivity.
  - intros uid' Hs. unfold _pick_random_color in *. now rewrite Hs.
Qed.

Lemma color_is_palette_entry_witness :
  sum_ord (lit "124") = 151%N /\
  _pick_random_color (lit "124") = Ok (lit "#4ECDC4") /\
  _pick_random_color (lit "421") = Ok (lit "#4ECDC4").
Proof.
  destruct (color_is_palette_entry (lit "124"))
    as (_ & H0 & Hs & c & Hn & Hc & _ & H).
  assert (E : sum_ord (lit "124") = 151%N).
  { change (lit "124") with [49; 50; 52]%N. rewrite !Hs.
    exact (f_equal (fun x => (49 + (50 + (52 + x)))%N) H0). }
  rewrite E in Hn. injection Hn as <-.
  split; [exact E|]. split; [exact Hc | exact (H (lit "421") eq_refl)].
Defined.

(** ** [get_or_register] *)

Lemma register_new_streamer_ok (e : env) (uid : pystr) (name : option pystr)
    (st : registry) :
  exists p st',
    register_new_streamer e uid name st = Ok (p, st') /\
    _cache st' = cache_set (KStr uid) p (_cache st) /\
    writes st' = S (writes st).
Proof.
  destruct (_pick_random_color_index uid) as (c & _ & Hc).
  unfold register_new_streamer. rewrite Hc. simpl.
  eexists; eexists; split; [reflexivity|].
  unfold save, _save_file. destruct (write e); simpl; auto.
Qed.

(** C3: [get_or_register(u)] always returns a profile [p]; afterwards [p] is
    the profile of [u] in the cache; a second call, whatever the clock and
    the name argument, returns the same [p] and changes nothing, hence
    writes nothing; the first call writes once when [u] was unseen and not
    at all otherwise. *)
Theorem get_or_register_twice (e1 e2 : env) (uid : pystr)
    (name1 name2 : option pystr) (st : registry) :
  exists p st1,
    get_or_register e1 uid name1 st = Ok (p, st1) /\
    get_streamer uid st1 = Some p /\
    get_or_register e2 uid name2 st1 = Ok (p, st1) /\
    writes st1 =
      match get_streamer uid st with
      | Some _ => writes st
      | None => S (writes st)
      end.
Proof.
  unfold get_or_register, get_streamer.
  destruct (cache_get (KStr uid) (_cache st)) as [p|] eqn:E.
  - exists p, st. rewrite E. auto.
  - destruct (register_new_streamer_ok e1 uid name1 st)
      as (p & st1 & Hr & Hc & Hw).
    exists p, st1. rewrite Hr, Hc. unfold cache_get, cache_set.
    rewrite dict_get_set_same. auto.
Qed.

(** ** [update_streamer_info] *)

Lemma save_frame (e : env) (st : registry) :
  _cache (save e st) = _cache st /\ writes (save e st) = S (writes st).
Proof. unfold save, _save_file. destruct (write e); simpl; auto. Qed.

Lemma obj_get_set_same (f : pystr) (v : json) (p : obj) :
  obj_get f (obj_set f v p) = Some v.
Proof. apply dict_get_set_same. Qed.

Lemma obj_get_set_other (f g : pystr) (v : json) (p : obj) :
  g <> f -> obj_get g (obj_set f v p) = obj_get g p.
Proof. apply dict_get_set_other. Qed.

(** C7: [update_streamer_info] is a no-op, state, file and write count
    untouched, when the uid is absent or when neither argument is given;
    otherwise it writes exactly once, and when that write succeeds the file
    holds the canonical document of the updated cache; it keeps the keys of
    the cache and every other profile, and in the profile of [uid] changes
    the given fields only: a
    field that is not given keeps its value, and so does every field other
    than name and color, uid and created_at among them.  An argument is
    given when it is a non-empty string (see C10). *)
Theorem update_streamer_info_frame (e : env) (uid : pystr)
    (name color : option pystr) (st : registry) :
  let st' := update_streamer_info e uid name color st in
  (get_streamer uid st = None -> st' = st) /\
  (truthy name = false -> truthy color = false -> st' = st) /\
  (forall p, get_streamer uid st = Some p ->
     truthy name || truthy color = true ->
     writes st' = S (writes st) /\
     (write e = Written ->
        json_file st' = Document (canonical (_cache st'))) /\
     dict_keys (_cache st') = dict_keys (_cache st) /\
     (forall k, k <> KStr uid ->
        cache_get k (_cache st') = cache_get k (_cache st)) /\
     exists p', get_streamer uid st' = Some p' /\
       obj_get (lit "name") p' =
         (if truthy name then option_map JStr name
          else obj_get (lit "name") p) /\
       obj_get (lit "color") p' =
         (if truthy color then option_map JStr color
          else obj_get (lit "color") p) /\
       obj_get (lit "uid") p' = obj_get (lit "uid") p /\
       obj_get (lit "created_at") p' = obj_get (lit "created_at") p /\
       (forall f, f <> lit "name" -> f <> lit "color" ->
          obj_get f p' = obj_get f p)).
Proof.
  unfold update_streamer_info, get_streamer. cbv zeta.
  destruct (cache_get (KStr uid) (_cache st)) as [p0|] eqn:E.
  2:{ repeat split; auto; discriminate. }
  split; [discriminate|]. split.
  { intros Hn Hc. now rewrite Hn, Hc. }
  intros p [= <-] Hch. rewrite Hch.
  match goal with
  | |- context [save e (set_cache (cache_set _ ?q _) st)] => set (p' := q)
  end.
  destruct (save_frame e (set_cache (cache_set (KStr uid) p' (_cache st)) st))
    as [Hc Hw].
  split; [exact Hw|]. split.
  { intros Hwr. now rewrite save_written by exact Hwr. }
  rewrite Hc. simpl. unfold cache_get, cache_set.
  split.
  { rewrite dict_keys_set. unfold dict_mem.
    unfold cache_get in E. now rewrite E. }
  split.
  { intros k Hk. now apply dict_get_set_other. }
  exists p'. rewrite dict_get_set_same. split; [reflexivity|].
  assert (Hname : lit "name" <> lit "color") by discriminate.
  assert (Hcol : lit "color" <> lit "name") by discriminate.
  assert (Hfields :
    obj_get (lit "name") p' =
      (if truthy name then option_map JStr name else obj_get (lit "name") p0)
    /\ obj_get (lit "color") p' =
      (if truthy color then option_map JStr color
       else obj_get (lit "color") p0)
    /\ forall f, f <> lit "name" -> f <> lit "color" ->
         obj_get f p' = obj_get f p0).
  { subst p'.
    destruct name as [[|c n]|]; destruct color as [[|c' n']|]; simpl;
      repeat split; intros;
      repeat first
        [ rewrite obj_get_set_same
        | rewrite obj_get_set_other by congruence ];
      reflexivity. }
  destruct Hfields as (H1 & H2 & H3).
  repeat split; auto; apply H3; discriminate.
Qed.

Lemma update_streamer_info_frame_witness :
  let st' := update_streamer_info (at_noon Written) (lit "123")
               (Some (lit "Miku")) None registry_123 in
  writes st' = 1%nat /\
  json_file st' = Document (canonical (_cache st')) /\
  get_streamer (lit "123") st' =
    Some (obj_set (lit "name") (JStr (lit "Miku")) profile_123).
Proof.
  pose proof (update_streamer_info_frame (at_noon Written) (lit "123")
                (Some (lit "Miku")) None registry_123) as H.
  cbv zeta in H. destruct H as (_ & _ & H).
  destruct (H profile_123 eq_refl eq_refl) as (Hw & Hf & _).
  split; [exact Hw|]. split; [exact (Hf eq_refl) | reflexivity].
Defined.

(** ** Empty strings, legacy keys *)

(** C10: [register_new_streamer(uid, name="")] does what it does without a
    name, and the profile gets the placeholder name; and
    [update_streamer_info(uid, name="", color="")] leaves the registry as it
    is, write count included. *)
Theorem empty_string_is_absent (e : env) (uid : pystr) (st : registry) :
  register_new_streamer e uid (Some []) st
    = register_new_streamer e uid None st /\
  (exists p st', register_new_streamer e uid (Some []) st = Ok (p, st') /\
     obj_get (lit "name") p = Some (JStr (default_name uid))) /\
  update_streamer_info e uid (Some []) (Some []) st = st.
Proof.
  split; [reflexivity|]. split.
  - destruct (_pick_random_color_index uid) as (c & _ & Hc).
    unfold register_new_streamer. rewrite Hc. simpl.
    eexists; eexists; split; reflexivity.
  - unfold update_streamer_info.
    now destruct (cache_get (KStr uid) (_cache st)).
Qed.

Lemma as_cache_profile_dict (d : list (pystr * json)) :
  is_profile_dict d = true ->
  dict_keys (as_cache d) = List.map KStr (List.map fst d) /\
  List.map JObj (dict_values (as_cache d)) = List.map snd d.
Proof.
  unfold dict_keys, dict_values.
  induction d as [|[k v] d IH]; simpl; [auto|].
  rewrite andb_true_iff. intros [Hv Hd]. destruct (IH Hd) as [IH1 IH2].
  destruct v; try discriminate. simpl. now rewrite IH1, IH2.
Qed.

(** C9: a dict without ["streamers"] whose values are all profile-shaped is
    taken as the cache as it stands: the keys of the cache are the top-level
    keys of the document, in order, and its values are the top-level values;
    the uid fields are not looked at.  So [{"a": {"uid": "b", ...}}] loads as
    an entry under [a] whose profile says [b]. *)
Theorem reload_legacy_keeps_keys :
  (forall (st : registry) (d : list (pystr * json)),
     json_file st = Document (JObj d) ->
     obj_get (lit "streamers") d = None ->
     is_profile_dict d = true ->
     exists st', reload st = Ok st' /\
       dict_keys (_cache st') = List.map KStr (List.map fst d) /\
       List.map JObj (dict_values (_cache st')) = List.map snd d) /\
  (exists st' p,
     reload (fresh (Document doc_legacy_ab)) = Ok st' /\
     get_streamer (lit "a") st' = Some p /\
     obj_get (lit "uid") p = Some (JStr (lit "b")) /\
     keyed_by_own_uid (_cache st') = false).
Proof.
  split.
  - intros st d Hf Hs Hp. rewrite (reload_document st Hf), Hs, Hp.
    eexists; split; [reflexivity|]. simpl. now apply as_cache_profile_dict.
  - eexists; eexists. split; [reflexivity|]. repeat split; reflexivity.
Qed.

Lemma reload_legacy_keeps_keys_witness :
  exists st', reload (fresh (Document doc_legacy_ab)) = Ok st' /\
    dict_keys (_cache st') = [KStr (lit "a")].
Proof.
  destruct (proj1 reload_legacy_keeps_keys (fresh (Document doc_legacy_ab))
              [(lit "a", JObj [(lit "uid", JStr (lit "b"));
                               (lit "name", JStr (lit "x"))])]
              eq_refl eq_refl eq_refl) as (st' & Hr & Hk & _).
  exists st'. split; [exact Hr | exact Hk].
Defined.

(** ** Where the round trip applies

    The two conditions of the round trip hold after a canonical load and
    are kept by registration and by updates. *)

Lemma cache_get_In (k : pykey) (p : StreamerProfile) (c : cache) :
  cache_get k c = Some p -> In (k, p) c.
Proof.
  unfold cache_get. induction c as [|[k' p'] c IH]; simpl; [discriminate|].
  destruct (key_eq_dec k k') as [->|]; [intros [= ->]; now left|].
  intros H. right. now apply IH.
Qed.

Lemma cache_set_filed_properly (k : pykey) (p : StreamerProfile) (c : cache) :
  own_key (k, p) = true -> filed_properly c ->
  filed_properly (cache_set k p c).
Proof.
  intros Hk [Hd Ho]. split.
  - apply distinct_keys_NoDup. apply distinct_keys_NoDup in Hd.
    unfold cache_set. rewrite dict_keys_set.
    destruct (dict_mem key_eq_dec k c) eqn:E; [exact Hd|].
    eapply Permutation_NoDup; [apply Permutation_cons_append|].
    constructor; [|exact Hd].
    intros HI. apply (dict_mem_In key_eq_dec) in HI. congruence.
  - clear Hd. unfold cache_set, keyed_by_own_uid in *.
    induction c as [|[k' p'] c IH]; simpl in *.
    + now rewrite Hk.
    + apply andb_true_iff in Ho as [Hk' Ho].
      destruct (key_eq_dec k k') as [<-|]; simpl.
      * now rewrite Hk, Ho.
      * now rewrite Hk', IH.
Qed.

Lemma own_key_intro (k : pykey) (p : StreamerProfile) (u : json) :
  obj_get (lit "uid") p = Some u -> py_hash u = Ok k ->
  own_key (k, p) = true.
Proof.
  intros Hu Hh. unfold own_key. simpl. rewrite Hu, Hh.
  now destruct (key_eq_dec k k).
Qed.

Lemma keyed_by_uid_filed_properly (streamers : list json) :
  forall acc c,
  keyed_by_uid streamers acc = Ok c ->
  filed_properly acc -> filed_properly c.
Proof.
  induction streamers as [|s l IH]; intros acc c; simpl.
  - now intros [= <-].
  - destruct s as [| | | | |p]; try discriminate.
    destruct (obj_get (lit "uid") p) as [u|] eqn:Hu; [|discriminate].
    destruct (py_hash u) as [k|] eqn:Hh; [|discriminate]. simpl.
    intros H Hacc. apply (IH _ _ H).
    apply cache_set_filed_properly; [|exact Hacc].
    exact (own_key_intro _ Hu Hh).
Qed.

Lemma reload_canonical_filed_properly (st st' : registry)
    (d : list (pystr * json)) (streamers : list json) :
  json_file st = Document (JObj d) ->
  obj_get (lit "streamers") d = Some (JArr streamers) ->
  reload st = Ok st' ->
  filed_properly (_cache st').
Proof.
  intros Hf Hs. rewrite (reload_document st Hf), Hs.
  destruct (keyed_by_uid streamers []) as [c|] eqn:E; [|discriminate].
  simpl. intros [= <-]. simpl.
  apply (@keyed_by_uid_filed_properly streamers [] c E). now split.
Qed.

Lemma register_new_streamer_filed_properly (e : env) (uid : pystr)
    (name : option pystr) (st st' : registry) (p : StreamerProfile) :
  filed_properly (_cache st) ->
  register_new_streamer e uid name st = Ok (p, st') ->
  filed_properly (_cache st').
Proof.
  intros Hinv. unfold register_new_streamer.
  destruct (_pick_random_color uid) as [c|]; [|discriminate]. simpl.
  intros [= <- <-].
  rewrite (proj1 (save_frame e _)). simpl.
  apply cache_set_filed_properly; [|exact Hinv].
  apply own_key_intro with (u := JStr uid); reflexivity.
Qed.

Lemma update_streamer_info_filed_properly (e : env) (uid : pystr)
    (name color : option pystr) (st : registry) :
  filed_properly (_cache st) ->
  filed_properly (_cache (update_streamer_info e uid name color st)).
Proof.
  intros Hinv. unfold update_streamer_info.
  destruct (cache_get (KStr uid) (_cache st)) as [p|] eqn:E; [|exact Hinv].
  destruct (truthy name || truthy color); [|exact Hinv].
  rewrite (proj1 (save_frame e _)). simpl.
  apply cache_set_filed_properly; [|exact Hinv].
  assert (Hp : own_key (KStr uid, p) = true).
  { destruct Hinv as [_ Ho]. unfold keyed_by_own_uid in Ho.
    rewrite forallb_forall in Ho. apply Ho. now apply cache_get_In. }
  unfold own_key in *. simpl in *.
  assert (H1 : lit "uid" <> lit "name") by discriminate.
  assert (H2 : lit "uid" <> lit "color") by discriminate.
  destruct name as [[|? ?]|]; destruct color as [[|? ?]|];
    rewrite ?obj_get_set_other by assumption; exact Hp.
Qed.

(* ------------------------------------------------------------------ *)
(** ** Further properties of the registry *)

Lemma fileable_key_of (s : json) :
  fileable s = true -> exists k p, key_of s = Some (k, p) /\ s = JObj p /\
    exists u, obj_get (lit "uid") p = Some u /\ py_hash u = Ok k.
Proof.
  unfold fileable, key_of. destruct s as [| | | | |p]; try discriminate.
  destruct (obj_get (lit "uid") p) as [u|] eqn:Hu; [|discriminate].
  destruct (py_hash u) as [k|] eqn:E; [|discriminate].
  intros _. exists k, p. split; [reflexivity|]. split; [reflexivity|].
  exists u. split; [exact Hu | exact E].
Qed.

(** What the dict comprehension answers to a lookup: the last element with
    that uid, or what was there before. *)
Lemma keyed_by_uid_lookup (streamers : list json) :
  forall acc, forallb fileable streamers = true ->
  exists c, keyed_by_uid streamers acc = Ok c /\
    forall k, cache_get k c =
      match last_filed k streamers with
      | Some p => Some p
      | None => cache_get k acc
      end.
Proof.
  induction streamers as [|s l IH]; intros acc Hf; simpl.
  - now exists acc.
  - simpl in Hf. apply andb_true_iff in Hf as [Hs Hl].
    destruct (fileable_key_of s Hs) as (k0 & p & Hk & -> & u & Hu & Hh).
    rewrite Hu, Hh. simpl bind.
    destruct (IH (cache_set k0 p acc) Hl) as (c & Hc & Hget).
    exists c. split; [exact Hc|]. intros k. rewrite Hget.
    destruct (last_filed k l); [reflexivity|].
    rewrite Hk. unfold cache_get, cache_set.
    destruct (key_eq_dec k k0) as [->|Hne].
    + apply dict_get_set_same.
    + now apply dict_get_set_other.
Qed.

(** X1: a canonical document whose elements all are dicts with a hashable
    uid loads without an exception; a lookup gives the last element of the
    list with that uid (earlier ones with the same uid are dropped), every
    profile sits under its own uid, and neither the file nor the write count
    changes. *)
Theorem canonical_load_last_wins (st : registry) (d : list (pystr * json))
    (streamers : list json) :
  json_file st = Document (JObj d) ->
  obj_get (lit "streamers") d = Some (JArr streamers) ->
  forallb fileable streamers = true ->
  exists st', reload st = Ok st' /\
    (forall k, cache_get k (_cache st') = last_filed k streamers) /\
    filed_properly (_cache st') /\
    json_file st' = json_file st /\ writes st' = writes st.
Proof.
  intros Hf Hs Hl. rewrite (reload_document st Hf), Hs.
  destruct (keyed_by_uid_lookup streamers [] Hl) as (c & Hc & Hget).
  rewrite Hc. simpl. eexists. split; [reflexivity|]. simpl.
  repeat split.
  - intros k. rewrite Hget. now destruct (last_filed k streamers).
  - apply (@keyed_by_uid_filed_properly streamers [] c Hc). now split.
  - apply (@keyed_by_uid_filed_properly streamers [] c Hc). now split.
Qed.

Lemma canonical_load_last_wins_witness :
  exists st',
    reload (fresh (Document (JObj [(lit "streamers",
              JArr [ JObj [(lit "uid", JStr (lit "7"));
                           (lit "name", JStr (lit "old"))];
                     JObj [(lit "uid", JStr (lit "7"));
                           (lit "name", JStr (lit "new"))] ])]))) = Ok st' /\
    get_streamer (lit "7") st' =
      Some [(lit "uid", JStr (lit "7")); (lit "name", JStr (lit "new"))] /\
    List.length (get_all_streamers st') = 1%nat.
Proof.
  destruct (@canonical_load_last_wins
              (fresh (Document (JObj [(lit "streamers",
                 JArr [ JObj [(lit "uid", JStr (lit "7"));
                              (lit "name", JStr (lit "old"))];
                        JObj [(lit "uid", JStr (lit "7"));
                              (lit "name", JStr (lit "new"))] ])])))
              _ _ eq_refl eq_refl eq_refl) as (st' & Hr & Hget & _).
  exists st'. split; [exact Hr|]. split.
  - exact (Hget (KStr (lit "7"))).
  - vm_compute in Hr. injection Hr as <-. reflexivity.
Defined.

(** X2: the operations that change the cache keep it filed properly: when
    every profile sits under its own uid and the keys are distinct, the same
    holds after [register_new_streamer], [get_or_register] and
    [update_streamer_info]. *)
Theorem mutations_keep_filing (e : env) (uid : pystr)
    (name color : option pystr) (st : registry) :
  filed_properly (_cache st) ->
  (forall p st', register_new_streamer e uid name st = Ok (p, st') ->
     filed_properly (_cache st')) /\
  (forall p st', get_or_register e uid name st = Ok (p, st') ->
     filed_properly (_cache st')) /\
  filed_properly (_cache (update_streamer_info e uid name color st)).
Proof.
  intros Hinv. split; [|split].
  - intros p st' H.
    exact (@register_new_streamer_filed_properly e uid name st st' p Hinv H).
  - intros p st'. unfold get_or_register.
    destruct (cache_get (KStr uid) (_cache st)).
    + now intros [= _ <-].
    + intros H.
      exact (@register_new_streamer_filed_properly e uid name st st' p Hinv H).
  - now apply update_streamer_info_filed_properly.
Qed.

Lemma mutations_keep_filing_witness :
  filed_properly
    (_cache (update_streamer_info (at_noon Written) (lit "123")
               (Some (lit "Miku")) None registry_123)).
Proof.
  apply (mutations_keep_filing (at_noon Written) (lit "123")
           (Some (lit "Miku")) None registry_123).
  split; reflexivity.
Defined.



(** X4: registering a uid that is not there appends: the new profile comes
    last in [get_all_streamers], after the profiles that were there, in
    their order. *)
Theorem register_new_appends (e : env) (uid : pystr) (name : option pystr)
    (st : registry) :
  get_streamer uid st = None ->
  exists p st',
    register_new_streamer e uid name st = Ok (p, st') /\
    get_all_streamers st' = get_all_streamers st ++ [p] /\
    dict_keys (_cache st') = dict_keys (_cache st) ++ [KStr uid].
Proof.
  intros Hnew.
  destruct (register_new_streamer_ok e uid name st)
    as (p & st' & Hr & Hc & _).
  exists p, st'. split; [exact Hr|].
  unfold get_all_streamers, get_streamer, cache_get in *. rewrite Hc.
  unfold cache_set. rewrite dict_set_fresh
    by (unfold dict_mem; now rewrite Hnew).
  unfold dict_values, dict_keys. now rewrite !map_app.
Qed.

Lemma register_new_appends_witness :
  exists p st',
    register_new_streamer (at_noon Written) (lit "456") None registry_123
      = Ok (p, st') /\
    dict_keys (_cache st') = [KStr (lit "123"); KStr (lit "456")].
Proof.
  destruct (@register_new_appends (at_noon Written) (lit "456") None
              registry_123 eq_refl) as (p & st' & Hr & _ & Hk).
  exists p, st'. auto.
Defined.

Lemma reload_after_save (e : env) (st : registry) :
  write e = Written ->
  reload (save e st) =
    bind (keyed_by_uid (List.map JObj (dict_values (_cache st))) [])
         (fun c => Ok (set_cache c (save e st))).
Proof.
  intros Hw.
  rewrite (reload_document (save e st) (j := canonical (_cache st)))
    by (now rewrite save_written).
  unfold canonical. now rewrite obj_get_head.
Qed.

Lemma reload_of_fresh (f : file_state) (c : cache) :
  f = Document (canonical c) ->
  filed_properly c ->
  reload (mkRegistry [] f 0 []) = Ok (mkRegistry c f 0 []).
Proof.
  intros -> [Hd Ho].
  rewrite (reload_document _ (j := canonical c)) by reflexivity.
  unfold canonical. rewrite obj_get_head.
  rewrite (@keyed_by_uid_values c []); simpl;
    [reflexivity | exact Ho | now apply distinct_keys_NoDup].
Qed.

(** [reload] goes by the file alone: two registries over the same file load
    the same cache, or raise the same exception. *)
Lemma reload_same_file (a b : registry) :
  json_file a = json_file b ->
  match reload a, reload b with
  | Ok a', Ok b' => _cache a' = _cache b' /\ json_file b' = json_file b
                    /\ writes b' = writes b
  | Raise x, Raise y => x = y
  | _, _ => False
  end.
Proof.
  intros H. unfold reload, reload_try. rewrite H.
  destruct (json_file b) as [| | | | | |j] eqn:Hb; simpl;
    try (repeat split; solve [reflexivity | exact Hb]).
  destruct j as [| | | | |d]; simpl; try (repeat split; solve [reflexivity | exact Hb]).
  destruct (obj_get (lit "streamers") d) as [[| | | |l|]|]; simpl;
    try (repeat split; solve [reflexivity | exact Hb]).
  - destruct (keyed_by_uid l []) as [c|[]]; simpl;
      repeat split; solve [reflexivity | exact Hb].
  - destruct (is_profile_dict d); simpl; repeat split; solve [reflexivity | exact Hb].
Qed.

(** X5: a registration that reached the disk is found again by the next
    process: when the cache was filed properly, the uid was new and the write
    succeeded, constructing a registry on the written file gives the same
    cache without any write, and [get_or_register] then returns the profile
    registered before, created_at included, whatever the clock says. *)
Theorem registration_survives_restart (e : env) (uid : pystr)
    (name : option pystr) (st st1 : registry) (p : StreamerProfile) :
  filed_properly (_cache st) ->
  write e = Written ->
  get_streamer uid st = None ->
  get_or_register e uid name st = Ok (p, st1) ->
  forall e2 config_dir makedirs_ok,
  exists st2,
    __init__ e2 config_dir makedirs_ok (json_file st1) = Ok st2 /\
    _cache st2 = _cache st1 /\ writes st2 = 0%nat /\
    forall e3 name3, get_or_register e3 uid name3 st2 = Ok (p, st2).
Proof.
  intros Hinv Hw Hnew Hreg e2 cd mk.
  unfold get_or_register in Hreg. unfold get_streamer in Hnew.
  rewrite Hnew in Hreg.
  pose proof (@register_new_streamer_filed_properly e uid name st st1 p
                Hinv Hreg) as Hinv1.
  destruct (register_new_streamer_ok e uid name st)
    as (p' & st' & Hr & Hc & _).
  rewrite Hr in Hreg. injection Hreg as -> ->.
  assert (Hfile : json_file st1 = Document (canonical (_cache st1))).
  { unfold register_new_streamer in Hr.
    destruct (_pick_random_color uid); [|discriminate]. simpl in Hr.
    injection Hr as _ <-. now rewrite save_written by exact Hw. }
  exists (mkRegistry (_cache st1) (json_file st1) 0 []).
  split; [|split; [reflexivity | split; [reflexivity|]]].
  - unfold __init__, _ensure_config_exists. cbv zeta. simpl json_file.
    rewrite Hfile at 1. simpl file_exists. cbv iota.
    now apply reload_of_fresh.
  - intros e3 name3. unfold get_or_register. simpl _cache.
    rewrite Hc. unfold cache_get, cache_set.
    now rewrite dict_get_set_same.
Qed.

Lemma registration_survives_restart_witness :
  exists st2,
    __init__ (at_noon Written) true true
      (Document (canonical [(KStr (lit "123"), profile_123)])) = Ok st2 /\
    get_streamer (lit "123") st2 = Some profile_123.
Proof.
  destruct (@registration_survives_restart (at_noon Written) (lit "123")
              None (fresh Missing)
              (mkRegistry [(KStr (lit "123"), profile_123)]
                 (Document (canonical [(KStr (lit "123"), profile_123)]))
                 1 [])
              profile_123 (conj eq_refl eq_refl) eq_refl eq_refl eq_refl
              (at_noon Written) true true) as (st2 & Hi & Hc & _).
  exists st2. split; [exact Hi|].
  unfold get_streamer. now rewrite Hc.
Defined.

(** X6: one [save] and [reload] put any cache in order: when every profile
    has a hashable uid and the write succeeds, the reloaded cache has every
    profile under its own uid, answers a lookup with the last profile that
    carried that uid, and from then on [save] and [reload] change
    nothing. *)
Theorem save_reload_normalises (e : env) (st : registry) :
  write e = Written ->
  values_fileable (_cache st) = true ->
  exists st1, reload (save e st) = Ok st1 /\
    filed_properly (_cache st1) /\
    (forall k, cache_get k (_cache st1) =
       last_filed k (List.map JObj (dict_values (_cache st)))) /\
    forall e', write e' = Written ->
      exists st2, reload (save e' st1) = Ok st2 /\ _cache st2 = _cache st1.
Proof.
  intros Hw Hv. rewrite reload_after_save by exact Hw.
  destruct (keyed_by_uid_lookup _ [] Hv) as (c & Hc & Hget).
  rewrite Hc. simpl bind. eexists. split; [reflexivity|]. simpl _cache.
  assert (Hinv : filed_properly c).
  { apply (@keyed_by_uid_filed_properly _ [] c Hc). now split. }
  split; [exact Hinv|]. split.
  - intros k. rewrite Hget.
    now destruct (last_filed k (List.map JObj (dict_values (_cache st)))).
  - intros e' Hw'. rewrite reload_after_save by exact Hw'. simpl _cache.
    destruct Hinv as [Hd Ho].
    rewrite (@keyed_by_uid_values c []); simpl;
      [| exact Ho | now apply distinct_keys_NoDup].
    eexists. split; reflexivity.
Qed.

Lemma save_reload_normalises_witness :
  exists st1,
    reload (save (at_noon Written)
              (mkRegistry cache_legacy_ab (Document doc_legacy_ab) 0 []))
      = Ok st1 /\
    dict_keys (_cache st1) = [KStr (lit "b")].
Proof.
  destruct (@save_reload_normalises (at_noon Written)
              (mkRegistry cache_legacy_ab (Document doc_legacy_ab) 0 [])
              eq_refl eq_refl) as (st1 & Hr & _).
  exists st1. split; [exact Hr|].
  vm_compute in Hr. injection Hr as <-. reflexivity.
Defined.

(** X7: a write that cannot open the file is swallowed: the registration
    still returns the profile and keeps it in the cache, the failure is
    printed, nothing is raised and the file stays as it was, so a later
    [reload] gives the cache it would have given before (the registration
    is lost) or raises as it would have. *)
Theorem failed_write_is_swallowed (e : env) (uid : pystr)
    (name : option pystr) (st : registry) :
  write e = OpenFails ->
  exists p st',
    register_new_streamer e uid name st = Ok (p, st') /\
    get_streamer uid st' = Some p /\
    stdout st' = stdout st ++ [SaveFailed] /\
    json_file st' = json_file st /\
    match reload st, reload st' with
    | Ok r, Ok r' => _cache r' = _cache r
    | Raise x, Raise y => x = y
    | _, _ => False
    end.
Proof.
  intros Hw.
  destruct (_pick_random_color_index uid) as (c & _ & Hc).
  unfold register_new_streamer. rewrite Hc. simpl bind.
  eexists; eexists. split; [reflexivity|].
  unfold save, _save_file. rewrite Hw. simpl.
  unfold get_streamer, cache_get, cache_set. simpl _cache.
  rewrite dict_get_set_same. repeat split.
  match goal with
  | |- context [reload (mkRegistry ?c ?f ?w ?o)] =>
      set (b := mkRegistry c f w o)
  end.
  pose proof (@reload_same_file st b eq_refl) as H.
  destruct (reload st), (reload b); try exact H.
  destruct H as (H & _). now symmetry.
Qed.

Lemma failed_write_is_swallowed_witness :
  exists p st',
    register_new_streamer (at_noon OpenFails) (lit "456") None registry_123
      = Ok (p, st') /\
    get_streamer (lit "456") st' = Some p /\
    json_file st' = Missing.
Proof.
  destruct (@failed_write_is_swallowed (at_noon OpenFails) (lit "456") None
              registry_123 eq_refl) as (p & st' & Hr & Hg & _ & Hf & _).
  exists p, st'. auto.
Defined.

(** X8: constructing a registry where there is no file never raises and
    gives an empty cache after exactly one attempt to write: with the
    directory at hand (or made) and a successful write the file then holds
    the empty canonical document, otherwise there still is no file.  On the
    file so created the next construction writes nothing and again gives the
    empty cache. *)
Theorem construction_without_file (e : env) (config_dir makedirs_ok : bool) :
  (exists st,
     __init__ e config_dir makedirs_ok Missing = Ok st /\
     _cache st = [] /\ writes st = 1%nat /\
     (config_dir || makedirs_ok = true -> write e = Written ->
        json_file st = Document empty_store) /\
     (config_dir || makedirs_ok = false -> json_file st = Missing)) /\
  (forall e2 config_dir2 makedirs_ok2,
     __init__ e2 config_dir2 makedirs_ok2 (Document empty_store)
       = Ok (mkRegistry [] (Document empty_store) 0 [])).
Proof.
  split; [|reflexivity].
  unfold __init__, _ensure_config_exists, _save_file. simpl.
  destruct config_dir, makedirs_ok; simpl;
    destruct (write e) eqn:Hw; simpl;
    eexists; (split; [reflexivity|]); simpl;
    repeat split; auto; intros; discriminate.
Qed.

Lemma construction_without_file_witness :
  exists st,
    __init__ (at_noon Written) false true Missing = Ok st /\
    json_file st = Document empty_store.
Proof.
  destruct (proj1 (construction_without_file (at_noon Written) false true))
    as (st & Hi & _ & _ & Hf & _).
  exists st. split; [exact Hi | exact (Hf eq_refl eq_refl)].
Defined.

Lemma reload_unrecognised_resets_witness :
  (exists st', reload (fresh Malformed) = Ok st' /\ _cache st' = []) /\
  reload (fresh Overlong) = Raise ValueError /\
  reload (fresh TooDeep) = Raise RecursionError.
Proof.
  split; [|split].
  - apply (proj1 (reload_unrecognised_resets (fresh Malformed))).
    reflexivity.
  - apply (proj2 (reload_unrecognised_resets (fresh Overlong)));
      solve [reflexivity | discriminate].
  - apply (proj2 (reload_unrecognised_resets (fresh TooDeep)));
      solve [reflexivity | discriminate].
Defined.

Lemma reload_raises_on_first_unshaped_witness :
  reload (fresh (Document (JObj [(lit "streamers",
            JArr [ JObj [(lit "uid", JStr (lit "7"))]; JStr (lit "8") ])])))
    = Raise TypeError.
Proof.
  apply (@reload_raises_on_first_unshaped
           (fresh (Document (JObj [(lit "streamers",
              JArr [ JObj [(lit "uid", JStr (lit "7"))];
                     JStr (lit "8") ])])))
           [(lit "streamers",
             JArr [ JObj [(lit "uid", JStr (lit "7"))]; JStr (lit "8") ])]
           [ JObj [(lit "uid", JStr (lit "7"))] ] [] (JStr (lit "8")));
    reflexivity.
Defined.

End RegistryFacts.

(* ================================================================== *)
(** * The regular expression engine                                    *)
(* ================================================================== *)

Section RegexFacts.
Import Py FileScanner.
Variable nd_value : char -> option N.

Local Abbreviation atom_ok := (atom_matches nd_value).
Local Abbreviation stops_at := (stops_at nd_value).

(** Greedy success: when [ds] is a run of matching characters of an allowed
    length that cannot be extended, and the rest of the pattern accepts what
    follows, the repetition captures exactly [ds]. *)
Lemma match_rep_greedy (ic : bool) (a : atom) (ds rest : pystr)
    (k : pystr -> pystr -> option (list pystr)) (r : list pystr) :
  forall (lo : nat) (hi : option nat) (acc : pystr),
  Forall (fun c => atom_ok ic a c = true) ds ->
  stops_at ic a rest ->
  (lo <= List.length ds)%nat ->
  within hi (List.length ds) ->
  k (acc ++ ds) rest = Some r ->
  match_rep nd_value ic a lo hi (ds ++ rest) acc k = Some r.
Proof.
  induction ds as [|d ds IH]; intros lo hi acc Hds Hstop Hlo Hhi Hk.
  - simpl in *. rewrite app_nil_r in Hk.
    assert (lo = 0)%nat as -> by lia.
    destruct rest as [|c rest]; simpl; [exact Hk|].
    simpl in Hstop. now rewrite Hstop.
  - inversion Hds as [|? ? Hd Hds']; subst. simpl.
    rewrite Hd. simpl in Hlo, Hhi.
    assert (Hcan : can_take hi = true).
    { destruct hi as [[|h]|]; simpl in *; [lia | reflexivity | reflexivity]. }
    rewrite Hcan. simpl.
    rewrite (IH (pred lo) (option_map pred hi) (acc ++ [d])); auto.
    + lia.
    + destruct hi as [h|]; simpl in *; [lia | exact I].
    + now rewrite <- app_assoc.
Qed.

(** Whatever a repetition captures is a run of matching characters of an
    allowed length, and the rest of the pattern accepted what follows. *)
Lemma match_rep_sound (ic : bool) (a : atom)
    (k : pystr -> pystr -> option (list pystr)) (r : list pystr) :
  forall (s : pystr) (lo : nat) (hi : option nat) (acc : pystr),
  match_rep nd_value ic a lo hi s acc k = Some r ->
  exists ds rest,
    s = ds ++ rest /\
    Forall (fun c => atom_ok ic a c = true) ds /\
    (lo <= List.length ds)%nat /\
    within hi (List.length ds) /\
    k (acc ++ ds) rest = Some r.
Proof.
  assert (Hstop : forall s lo hi acc,
            match lo with O => k acc s | S _ => None end = Some r ->
            exists ds rest,
              s = ds ++ rest /\
              Forall (fun c => atom_ok ic a c = true) ds /\
              (lo <= List.length ds)%nat /\
              within hi (List.length ds) /\
              k (acc ++ ds) rest = Some r).
  { intros s lo hi acc H. destruct lo; [|discriminate].
    exists [], s. rewrite app_nil_r. repeat split; auto.
    destruct hi; simpl; [lia | exact I]. }
  induction s as [|c s IH]; intros lo hi acc H; simpl in H.
  - now apply Hstop.
  - destruct (atom_ok ic a c && can_take hi) eqn:E; [|now apply Hstop].
    destruct (match_rep nd_value ic a (pred lo) (option_map pred hi) s
                        (acc ++ [c]) k) as [r'|] eqn:Hrec;
      [|now apply Hstop].
    injection H as ->. apply andb_true_iff in E as [Hc Hcan].
    destruct (IH _ _ _ Hrec) as (ds & rest & -> & Hds & Hlo & Hhi & Hk).
    exists (c :: ds), rest. simpl. repeat split; auto.
    + lia.
    + destruct hi as [[|h]|]; simpl in *; [discriminate | lia | exact I].
    + now rewrite <- app_assoc in Hk.
Qed.

Lemma match_items_group (ic : bool) (a : atom) (lo : nat) (hi : option nat)
    (p : list item) (ds rest : pystr) (g r : list pystr) :
  Forall (fun c => atom_ok ic a c = true) ds ->
  stops_at ic a rest ->
  (lo <= List.length ds)%nat ->
  within hi (List.length ds) ->
  match_items nd_value ic p rest (g ++ [ds]) = Some r ->
  match_items nd_value ic (Group a lo hi :: p) (ds ++ rest) g = Some r.
Proof.
  intros Hds Hstop Hlo Hhi Hk. simpl.
  now apply match_rep_greedy.
Qed.

Lemma match_items_group_inv (ic : bool) (a : atom) (lo : nat)
    (hi : option nat) (p : list item) (s : pystr) (g r : list pystr) :
  match_items nd_value ic (Group a lo hi :: p) s g = Some r ->
  exists ds rest,
    s = ds ++ rest /\
    Forall (fun c => atom_ok ic a c = true) ds /\
    (lo <= List.length ds)%nat /\
    within hi (List.length ds) /\
    match_items nd_value ic p rest (g ++ [ds]) = Some r.
Proof.
  simpl. intros H. apply match_rep_sound in H.
  destruct H as (ds & rest & Hs & Hds & Hlo & Hhi & Hk).
  now exists ds, rest.
Qed.

Lemma match_items_lit_inv (ic : bool) (c : char) (p : list item) (s : pystr)
    (g r : list pystr) :
  match_items nd_value ic (Lit c :: p) s g = Some r ->
  exists x rest,
    s = x :: rest /\ lit_matches ic c x = true /\
    match_items nd_value ic p rest g = Some r.
Proof.
  simpl. destruct s as [|x rest]; [discriminate|].
  destruct (lit_matches ic c x) eqn:E; [|discriminate].
  intros H. now exists x, rest.
Qed.

Lemma match_items_eos_inv (ic : bool) (p : list item) (s : pystr)
    (g r : list pystr) :
  match_items nd_value ic (Eos :: p) s g = Some r ->
  at_end s = true /\ match_items nd_value ic p s g = Some r.
Proof.
  simpl. destruct (at_end s); [auto | discriminate].
Qed.

End RegexFacts.

(* ================================================================== *)
(** * The file scanner                                                 *)
(* ================================================================== *)

Section ScannerFacts.
Import Py FileScanner.
Variable nd_value : char -> option N.

Local Abbreviation digits := (digits nd_value).
Local Abbreviation re_match := (re_match nd_value).
Local Abbreviation _parse_file := (_parse_file nd_value).

(** ** Digits *)

Lemma digits_Forall (s : pystr) :
  digits s = true ->
  Forall (fun c => atom_matches nd_value true Digit c = true) s.
Proof.
  unfold FileScanner.digits. rewrite forallb_forall, Forall_forall.
  intros H c Hc. exact (H c Hc).
Qed.

Lemma Forall_digits (s : pystr) :
  Forall (fun c => atom_matches nd_value true Digit c = true) s ->
  digits s = true.
Proof.
  unfold FileScanner.digits. rewrite forallb_forall, Forall_forall.
  intros H c Hc. exact (H c Hc).
Qed.

Lemma ascii_digit_cases (c : char) :
  ascii_digit c = true ->
  (c = 48 \/ c = 49 \/ c = 50 \/ c = 51 \/ c = 52 \/
   c = 53 \/ c = 54 \/ c = 55 \/ c = 56 \/ c = 57)%N.
Proof.
  unfold ascii_digit. rewrite andb_true_iff, !N.leb_le. lia.
Qed.

Lemma ascii_digit_is_digit (c : char) :
  ascii_digit c = true -> is_digit nd_value c = true.
Proof.
  intros H. apply ascii_digit_cases in H.
  repeat destruct H as [->|H]; try subst c; reflexivity.
Qed.

Lemma ascii_digits_digits (s : pystr) :
  ascii_digits s = true -> digits s = true.
Proof.
  unfold ascii_digits, FileScanner.digits. rewrite !forallb_forall.
  intros H c Hc. apply ascii_digit_is_digit. now apply H.
Qed.

(** [int] of one or two ASCII digits, formatted with [:02d], is the string
    itself, with a zero in front when it has one digit. *)
Lemma format_02d_pad2 (s : pystr) :
  ascii_digits s = true -> one_or_two s = true ->
  exists n, py_int nd_value s = Ok n /\ format_02d n = pad2 s.
Proof.
  destruct s as [|a [|b [|? ?]]]; try discriminate; simpl;
    rewrite ?andb_true_iff; intros H _.
  - destruct H as [Ha _]. apply ascii_digit_cases in Ha.
    repeat destruct Ha as [->|Ha]; try subst a;
      eexists; split; reflexivity.
  - destruct H as (Ha & Hb & _).
    apply ascii_digit_cases in Ha. apply ascii_digit_cases in Hb.
    repeat destruct Ha as [->|Ha]; try subst a;
      repeat destruct Hb as [->|Hb]; try subst b;
      eexists; split; reflexivity.
Qed.

Lemma int_digits_total (s : pystr) (acc : N) :
  digits s = true -> exists n, int_digits nd_value s acc = Some n.
Proof.
  revert acc. induction s as [|c s IH]; intros acc; simpl.
  - now exists acc.
  - rewrite andb_true_iff. unfold is_digit. intros [Hc Hs].
    destruct (decimal nd_value c); [|discriminate]. now apply IH.
Qed.

Lemma py_int_digits (s : pystr) :
  digits s = true -> s <> [] -> exists n, py_int nd_value s = Ok n.
Proof.
  intros Hd Hne. destruct s as [|c s]; [congruence|].
  unfold py_int. destruct (int_digits_total (c :: s) 0 Hd) as [n ->].
  now exists n.
Qed.

(** ** Literals *)

Lemma match_items_lit (ic : bool) (c x : char) (p : list item) (rest : pystr)
    (g : list pystr) :
  lit_matches ic c x = true ->
  match_items nd_value ic (Lit c :: p) (x :: rest) g
    = match_items nd_value ic p rest g.
Proof. intros H. simpl. now rewrite H. Qed.

(** Under [IGNORECASE] a literal that is not a letter matches itself
    only. *)
Lemma ignorecase_eq_nonletter (p x : char) :
  (p < 65 \/ (90 < p /\ p < 97) \/ 122 < p)%N ->
  ignorecase_eq p x = true -> x = p.
Proof.
  intros Hp. unfold ignorecase_eq.
  change (ord "s") with 115%N. change (ord "i") with 105%N.
  change (ord "k") with 107%N.
  assert (Hl : ascii_lower p = p).
  { unfold ascii_lower.
    destruct ((65 <=? p) && (p <=? 90))%N eqn:E; [|reflexivity].
    apply andb_true_iff in E as [E1 E2].
    apply N.leb_le in E1, E2. lia. }
  cbv zeta. rewrite Hl.
  assert (Hs : (p =? 115)%N = false) by (apply N.eqb_neq; lia).
  assert (Hi : (p =? 105)%N = false) by (apply N.eqb_neq; lia).
  assert (Hk : (p =? 107)%N = false) by (apply N.eqb_neq; lia).
  rewrite Hs, Hi, Hk. simpl. rewrite !orb_false_r.
  intros H. apply N.eqb_eq in H. unfold ascii_lower in H.
  destruct ((65 <=? x) && (x <=? 90))%N eqn:E; [|exact H].
  apply andb_true_iff in E as [E1 E2]. apply N.leb_le in E1, E2. lia.
Qed.

Lemma same_ignoring_case_3 (a b c : char) (ext : pystr) :
  same_ignoring_case [a; b; c] ext = true <->
  exists x y z, ext = [x; y; z] /\ ignorecase_eq a x = true /\
                ignorecase_eq b y = true /\ ignorecase_eq c z = true.
Proof.
  split.
  - destruct ext as [|x [|y [|z [|? ?]]]];
      cbn [same_ignoring_case]; try discriminate;
      rewrite ?andb_true_iff; try (intros (_ & _ & _ & ?); discriminate).
    + intros (_ & ?); discriminate.
    + intros (_ & _ & ?); discriminate.
    + intros (Ha & Hb & Hc & _). now exists x, y, z.
  - intros (x & y & z & -> & Ha & Hb & Hc).
    cbn [same_ignoring_case]. now rewrite Ha, Hb, Hc.
Qed.

Lemma one_or_two_length (s : pystr) :
  one_or_two s = true <-> (1 <= List.length s <= 2)%nat.
Proof.
  destruct s as [|a [|b [|c s]]]; simpl; split; intros H;
    try discriminate; try reflexivity; lia.
Qed.

(** ** The two patterns *)

(** Every name of the log grammar, with or without a line feed after it,
    matches [LOG_PATTERN], and the groups are its four fields. *)
Lemma re_match_log_name (uid year month day ext nl : pystr) :
  digits uid = true -> uid <> [] ->
  digits year = true -> List.length year = 4%nat ->
  digits month = true -> one_or_two month = true ->
  digits day = true -> one_or_two day = true ->
  same_ignoring_case (lit "log") ext = true ->
  feed_or_nothing nl = true ->
  re_match true LOG_PATTERN (log_name uid year month day ext ++ nl)
    = Some [uid; year; month; day].
Proof.
  intros Hu Hu0 Hy Hy4 Hm Hm12 Hd Hd12 Hext Hnl.
  change (lit "log") with [ord "l"; ord "o"; ord "g"] in Hext.
  apply same_ignoring_case_3 in Hext as (x & y & z & -> & Hx & Hy' & Hz).
  apply one_or_two_length in Hm12, Hd12.
  unfold FileScanner.re_match, LOG_PATTERN, log_name.
  repeat (rewrite <- app_assoc; rewrite <- ?app_comm_cons).
  apply match_items_group;
    [now apply digits_Forall | reflexivity
    | destruct uid; [congruence | simpl; lia] | exact I |].
  rewrite match_items_lit by reflexivity.
  apply match_items_group;
    [now apply digits_Forall | reflexivity | lia | simpl; lia |].
  rewrite match_items_lit by reflexivity.
  apply match_items_group;
    [now apply digits_Forall | reflexivity | lia | simpl; lia |].
  rewrite match_items_lit by reflexivity.
  apply match_items_group;
    [now apply digits_Forall | reflexivity | lia | simpl; lia |].
  rewrite match_items_lit by reflexivity.
  simpl app.
  rewrite !match_items_lit by assumption.
  simpl. change (at_end nl) with (feed_or_nothing nl). now rewrite Hnl.
Qed.

(** The same for the csv grammar. *)
Lemma re_match_csv_name (uid year month ext nl : pystr) :
  digits uid = true -> uid <> [] ->
  digits year = true -> List.length year = 4%nat ->
  digits month = true -> one_or_two month = true ->
  same_ignoring_case (lit "csv") ext = true ->
  feed_or_nothing nl = true ->
  re_match true CSV_PATTERN (csv_name uid year month ext ++ nl)
    = Some [uid; year; month].
Proof.
  intros Hu Hu0 Hy Hy4 Hm Hm12 Hext Hnl.
  change (lit "csv") with [ord "c"; ord "s"; ord "v"] in Hext.
  apply same_ignoring_case_3 in Hext as (x & y & z & -> & Hx & Hy' & Hz).
  apply one_or_two_length in Hm12.
  unfold FileScanner.re_match, CSV_PATTERN, csv_name.
  repeat (rewrite <- app_assoc; rewrite <- ?app_comm_cons).
  apply match_items_group;
    [now apply digits_Forall | reflexivity
    | destruct uid; [congruence | simpl; lia] | exact I |].
  rewrite match_items_lit by reflexivity.
  apply match_items_group;
    [now apply digits_Forall | reflexivity | lia | simpl; lia |].
  rewrite match_items_lit by reflexivity.
  apply match_items_group;
    [now apply digits_Forall | reflexivity | lia | simpl; lia |].
  rewrite match_items_lit by reflexivity.
  simpl app.
  rewrite !match_items_lit by assumption.
  simpl. change (at_end nl) with (feed_or_nothing nl). now rewrite Hnl.
Qed.

Lemma lit_nonletter_inv (c x : char) :
  (c < 65 \/ (90 < c /\ c < 97) \/ 122 < c)%N ->
  lit_matches true c x = true -> x = c.
Proof. intros Hc. now apply ignorecase_eq_nonletter. Qed.

Tactic Notation "invert_group" hyp(H) ident(ds) ident(Hds) ident(Hlo)
    ident(Hhi) :=
  let rest := fresh "rest" in
  apply match_items_group_inv in H;
  destruct H as (ds & rest & -> & Hds & Hlo & Hhi & H);
  apply Forall_digits in Hds; simpl in Hhi.

Tactic Notation "invert_lit" hyp(H) ident(x) ident(Hx) :=
  let rest := fresh "rest" in
  apply match_items_lit_inv in H;
  destruct H as (x & rest & -> & Hx & H).

Tactic Notation "invert_mark" hyp(H) ident(x) :=
  let Hx := fresh "Hx" in
  invert_lit H x Hx;
  apply lit_nonletter_inv in Hx;
  [subst x | change (ord "_") with 95%N; change (ord "-") with 45%N;
             change (ord ".") with 46%N; lia].

(** Whatever matches [LOG_PATTERN] is a name of the log grammar, possibly
    with one line feed after it, and the groups are its four fields. *)
Lemma re_match_log_inv (s : pystr) (g : list pystr) :
  re_match true LOG_PATTERN s = Some g ->
  exists uid year month day ext nl,
    s = log_name uid year month day ext ++ nl /\
    g = [uid; year; month; day] /\
    digits uid = true /\ uid <> [] /\
    digits year = true /\ List.length year = 4%nat /\
    digits month = true /\ one_or_two month = true /\
    digits day = true /\ one_or_two day = true /\
    same_ignoring_case (lit "log") ext = true /\
    feed_or_nothing nl = true.
Proof.
  unfold FileScanner.re_match, LOG_PATTERN. intros H.
  invert_group H uid Hu Hu1 Hu2. invert_mark H c1.
  invert_group H year Hy Hy1 Hy2. invert_mark H c2.
  invert_group H month Hm Hm1 Hm2. invert_mark H c3.
  invert_group H day Hd Hd1 Hd2. invert_mark H c4.
  invert_lit H x Hx. invert_lit H y Hy'. invert_lit H z Hz.
  apply match_items_eos_inv in H as [Hnl H]. simpl in H.
  injection H as <-.
  match type of Hnl with at_end ?nl = true =>
    exists uid, year, month, day, [x; y; z], nl end.
  unfold log_name. repeat (rewrite <- app_assoc; rewrite <- ?app_comm_cons).
  repeat split; auto.
  - intros ->. simpl in Hu1. lia.
  - lia.
  - apply one_or_two_length. lia.
  - apply one_or_two_length. lia.
  - change (lit "log") with [ord "l"; ord "o"; ord "g"].
    apply same_ignoring_case_3. now exists x, y, z.
Qed.

Lemma re_match_csv_inv (s : pystr) (g : list pystr) :
  re_match true CSV_PATTERN s = Some g ->
  exists uid year month ext nl,
    s = csv_name uid year month ext ++ nl /\
    g = [uid; year; month] /\
    digits uid = true /\ uid <> [] /\
    digits year = true /\ List.length year = 4%nat /\
    digits month = true /\ one_or_two month = true /\
    same_ignoring_case (lit "csv") ext = true /\
    feed_or_nothing nl = true.
Proof.
  unfold FileScanner.re_match, CSV_PATTERN. intros H.
  invert_group H uid Hu Hu1 Hu2. invert_mark H c1.
  invert_group H year Hy Hy1 Hy2. invert_mark H c2.
  invert_group H month Hm Hm1 Hm2. invert_mark H c3.
  invert_lit H x Hx. invert_lit H y Hy'. invert_lit H z Hz.
  apply match_items_eos_inv in H as [Hnl H]. simpl in H.
  injection H as <-.
  match type of Hnl with at_end ?nl = true =>
    exists uid, year, month, [x; y; z], nl end.
  unfold csv_name. repeat (rewrite <- app_assoc; rewrite <- ?app_comm_cons).
  repeat split; auto.
  - intros ->. simpl in Hu1. lia.
  - lia.
  - apply one_or_two_length. lia.
  - change (lit "csv") with [ord "c"; ord "s"; ord "v"].
    apply same_ignoring_case_3. now exists x, y, z.
Qed.

(** ** [_parse_file] *)

(** A run of digits in front of a character that is not a digit is
    determined by the whole string. *)
Lemma digit_run_unique (a a' r r' : pystr) (x x' : char) :
  digits a = true -> digits a' = true ->
  is_digit nd_value x = false -> is_digit nd_value x' = false ->
  a ++ x :: r = a' ++ x' :: r' ->
  a = a' /\ x = x' /\ r = r'.
Proof.
  revert a'. induction a as [|c a IH]; intros [|c' a'] Ha Ha' Hx Hx' E;
    simpl in *.
  - now injection E as -> ->.
  - injection E as -> _. apply andb_true_iff in Ha' as [Hc _]. congruence.
  - injection E as -> _. apply andb_true_iff in Ha as [Hc _]. congruence.
  - injection E as -> E. apply andb_true_iff in Ha as [_ Ha].
    apply andb_true_iff in Ha' as [_ Ha'].
    destruct (IH a' Ha Ha' Hx Hx' E) as (-> & -> & ->). auto.
Qed.

(** A name of the csv grammar does not match [LOG_PATTERN]. *)
Lemma re_match_log_csv_name (uid year month ext nl : pystr) :
  digits uid = true -> digits year = true -> digits month = true ->
  re_match true LOG_PATTERN (csv_name uid year month ext ++ nl) = None.
Proof.
  intros Hu Hy Hm.
  destruct (re_match true LOG_PATTERN (csv_name uid year month ext ++ nl))
    as [g|] eqn:E; [exfalso | reflexivity].
  apply re_match_log_inv in E.
  destruct E as (uid' & year' & month' & day' & ext' & nl' & E & _ &
                 Hu' & _ & Hy' & _ & Hm' & _).
  unfold csv_name, log_name in E.
  repeat (rewrite <- app_assoc in E; rewrite <- ?app_comm_cons in E).
  apply digit_run_unique in E as (_ & _ & E);
    [| assumption | assumption | reflexivity | reflexivity].
  apply digit_run_unique in E as (_ & _ & E);
    [| assumption | assumption | reflexivity | reflexivity].
  apply digit_run_unique in E as (_ & E & _);
    [| assumption | assumption | reflexivity | reflexivity].
  discriminate.
Qed.

(** A file of the log grammar that can be statted is classified. *)
Lemma _parse_file_log (path uid year month day ext : pystr) (sz : N) :
  basename path = log_name uid year month day ext ->
  digits uid = true -> uid <> [] ->
  digits year = true -> List.length year = 4%nat ->
  ascii_digits month = true -> one_or_two month = true ->
  ascii_digits day = true -> one_or_two day = true ->
  same_ignoring_case (lit "log") ext = true ->
  _parse_file path (Ok sz) =
    Ok (Some (mkFileMeta path (log_name uid year month day ext) (lit "log")
                uid (year ++ ord "-" :: pad2 month ++ ord "-" :: pad2 day)
                sz)).
Proof.
  intros Hb Hu Hu0 Hy Hy4 Hm Hm12 Hd Hd12 Hext.
  unfold FileScanner._parse_file. rewrite Hb. simpl bind.
  pose proof (@re_match_log_name uid year month day ext []
                Hu Hu0 Hy Hy4 (@ascii_digits_digits month Hm) Hm12
                (@ascii_digits_digits day Hd) Hd12 Hext eq_refl) as E.
  rewrite app_nil_r in E. rewrite E.
  destruct (@format_02d_pad2 month Hm Hm12) as (m & Em & Fm).
  destruct (@format_02d_pad2 day Hd Hd12) as (d & Ed & Fd).
  rewrite Em. simpl bind. rewrite Ed. simpl bind. rewrite Fm, Fd.
  reflexivity.
Qed.

(** A file of the csv grammar that can be statted is classified. *)
Lemma _parse_file_csv (path uid year month ext : pystr) (sz : N) :
  basename path = csv_name uid year month ext ->
  digits uid = true -> uid <> [] ->
  digits year = true -> List.length year = 4%nat ->
  ascii_digits month = true -> one_or_two month = true ->
  same_ignoring_case (lit "csv") ext = true ->
  _parse_file path (Ok sz) =
    Ok (Some (mkFileMeta path (csv_name uid year month ext) (lit "csv")
                uid (year ++ ord "-" :: pad2 month) sz)).
Proof.
  intros Hb Hu Hu0 Hy Hy4 Hm Hm12 Hext.
  unfold FileScanner._parse_file. rewrite Hb. simpl bind.
  pose proof (@re_match_log_csv_name uid year month ext []
                Hu Hy (@ascii_digits_digits month Hm)) as E0.
  rewrite app_nil_r in E0. rewrite E0.
  pose proof (@re_match_csv_name uid year month ext []
                Hu Hu0 Hy Hy4 (@ascii_digits_digits month Hm) Hm12
                Hext eq_refl) as E.
  rewrite app_nil_r in E. rewrite E.
  destruct (@format_02d_pad2 month Hm Hm12) as (m & Em & Fm).
  rewrite Em. simpl bind. rewrite Fm. reflexivity.
Qed.

Lemma one_or_two_nonempty (s : pystr) : one_or_two s = true -> s <> [].
Proof. destruct s; [discriminate | congruence]. Qed.

(** Every record comes from a base name of one of the two grammars,
    followed by a line feed or by nothing. *)
Lemma _parse_file_record_inv (path : pystr) (st : result N) (m : FileMeta) :
  _parse_file path st = Ok (Some m) ->
  exists sz nl,
    st = Ok sz /\ file_path m = path /\ file_name m = basename path /\
    file_size m = sz /\ feed_or_nothing nl = true /\
    ((exists year month day ext,
        basename path = log_name (uid m) year month day ext ++ nl /\
        file_type m = lit "log" /\
        digits (uid m) = true /\ uid m <> [] /\
        digits year = true /\ List.length year = 4%nat /\
        digits month = true /\ one_or_two month = true /\
        digits day = true /\ one_or_two day = true /\
        same_ignoring_case (lit "log") ext = true)
     \/
     (exists year month ext,
        basename path = csv_name (uid m) year month ext ++ nl /\
        file_type m = lit "csv" /\
        digits (uid m) = true /\ uid m <> [] /\
        digits year = true /\ List.length year = 4%nat /\
        digits month = true /\ one_or_two month = true /\
        same_ignoring_case (lit "csv") ext = true)).
Proof.
  unfold FileScanner._parse_file. destruct st as [sz|e]; [|discriminate].
  simpl bind.
  destruct (re_match true LOG_PATTERN (basename path)) as [g|] eqn:E.
  - apply re_match_log_inv in E.
    destruct E as (u & year & month & day & ext & nl & Hs & -> &
                   Hu & Hu0 & Hy & Hy4 & Hm & Hm12 & Hd & Hd12 & Hext & Hnl).
    destruct (@py_int_digits month Hm (@one_or_two_nonempty month Hm12)) as [a ->].
    destruct (@py_int_digits day Hd (@one_or_two_nonempty day Hd12)) as [b ->].
    simpl. intros [= <-]. exists sz, nl. simpl.
    repeat split; auto. left. exists year, month, day, ext.
    repeat split; auto.
  - destruct (re_match true CSV_PATTERN (basename path)) as [g|] eqn:E';
      [|discriminate].
    apply re_match_csv_inv in E'.
    destruct E' as (u & year & month & ext & nl & Hs & -> &
                    Hu & Hu0 & Hy & Hy4 & Hm & Hm12 & Hext & Hnl).
    destruct (@py_int_digits month Hm (@one_or_two_nonempty month Hm12)) as [a ->].
    simpl. intros [= <-]. exists sz, nl. simpl.
    repeat split; auto. right. exists year, month, ext.
    repeat split; auto.
Qed.

(** [_parse_file] raises nothing of its own: with a size in hand it
    returns. *)
Lemma _parse_file_returns (path : pystr) (sz : N) :
  exists r, _parse_file path (Ok sz) = Ok r.
Proof.
  unfold FileScanner._parse_file. simpl bind.
  destruct (re_match true LOG_PATTERN (basename path)) as [g|] eqn:E.
  - apply re_match_log_inv in E.
    destruct E as (u & year & month & day & ext & nl & Hs & -> &
                   Hu & Hu0 & Hy & Hy4 & Hm & Hm12 & Hd & Hd12 & Hext & Hnl).
    destruct (@py_int_digits month Hm (@one_or_two_nonempty month Hm12)) as [a ->].
    destruct (@py_int_digits day Hd (@one_or_two_nonempty day Hd12)) as [b ->].
    simpl. eauto.
  - destruct (re_match true CSV_PATTERN (basename path)) as [g|] eqn:E';
      [|eauto].
    apply re_match_csv_inv in E'.
    destruct E' as (u & year & month & ext & nl & Hs & -> &
                    Hu & Hu0 & Hy & Hy4 & Hm & Hm12 & Hext & Hnl).
    destruct (@py_int_digits month Hm (@one_or_two_nonempty month Hm12)) as [a ->].
    simpl. eauto.
Qed.

(** A failed [stat] is the exception [_parse_file] raises, whatever the
    name. *)
Lemma _parse_file_unstattable (path : pystr) (e : exn) :
  _parse_file path (Raise e) = Raise e.
Proof. reflexivity. Qed.

(** ** Classification of file names *)

(** Sample file names, for every size [sz] the file may have:
    padding does not matter, the month 13 is taken as it is, and a uid that
    is not made of digits gives no record. *)
Lemma filename_examples (sz : N) :
  _parse_file (lit "123_2025-5-1.log") (Ok sz) =
    Ok (Some (mkFileMeta (lit "123_2025-5-1.log") (lit "123_2025-5-1.log")
                (lit "log") (lit "123") (lit "2025-05-01") sz)) /\
  _parse_file (lit "123_2025-05-01.log") (Ok sz) =
    Ok (Some (mkFileMeta (lit "123_2025-05-01.log")
                (lit "123_2025-05-01.log")
                (lit "log") (lit "123") (lit "2025-05-01") sz)) /\
  _parse_file (lit "123_2025-5.csv") (Ok sz) =
    Ok (Some (mkFileMeta (lit "123_2025-5.csv") (lit "123_2025-5.csv")
                (lit "csv") (lit "123") (lit "2025-05") sz)) /\
  _parse_file (lit "123_2025-13-01.log") (Ok sz) =
    Ok (Some (mkFileMeta (lit "123_2025-13-01.log")
                (lit "123_2025-13-01.log")
                (lit "log") (lit "123") (lit "2025-13-01") sz)) /\
  _parse_file (lit "0012_2025-5-1.log") (Ok sz) =
    Ok (Some (mkFileMeta (lit "0012_2025-5-1.log") (lit "0012_2025-5-1.log")
                (lit "log") (lit "0012") (lit "2025-05-01") sz)) /\
  _parse_file (lit "abc_2025-05-01.log") (Ok sz) = Ok None /\
  _parse_file (lit "readme.txt") (Ok sz) = Ok None.
Proof. repeat split; reflexivity. Qed.

(** X19: names outside the grammars, as far as the code goes: a base name
    that is in neither grammar and does not end with a line feed gives no
    record, and no exception. *)
Lemma unmatched_name_no_record (path : pystr) (sz : N) :
  ~ log_grammar nd_value (basename path) ->
  ~ csv_grammar nd_value (basename path) ->
  ~ ends_with_line_feed (basename path) ->
  _parse_file path (Ok sz) = Ok None.
Proof.
  intros Hlog Hcsv Hnl.
  destruct (_parse_file_returns path sz) as [[m|] Hr]; [exfalso | exact Hr].
  apply _parse_file_record_inv in Hr.
  destruct Hr as (sz' & nl & _ & _ & _ & _ & Hfeed & Hname).
  assert (Hnl' : nl = [] \/ nl = [10%N]).
  { destruct nl as [|c [|? ?]]; simpl in Hfeed; try discriminate; auto.
    apply N.eqb_eq in Hfeed. subst. auto. }
  destruct Hname as [(year & month & day & ext & Hb & _ & H)
                    |(year & month & ext & Hb & _ & H)].
  - destruct Hnl' as [-> | ->].
    + rewrite app_nil_r in Hb. apply Hlog.
      exists (uid m), year, month, day, ext. split; [exact Hb | exact H].
    + apply Hnl. eexists. exact Hb.
  - destruct Hnl' as [-> | ->].
    + rewrite app_nil_r in Hb. apply Hcsv.
      exists (uid m), year, month, ext. split; [exact Hb | exact H].
    + apply Hnl. eexists. exact Hb.
Qed.

Lemma log_name_last (uid year month day ext : pystr) (s : pystr) (c : char) :
  same_ignoring_case (lit "log") ext = true ->
  log_name uid year month day ext = s ++ [c] ->
  ignorecase_eq (ord "g") c = true.
Proof.
  intros Hext E.
  change (lit "log") with [ord "l"; ord "o"; ord "g"] in Hext.
  apply same_ignoring_case_3 in Hext as (x & y & z & -> & _ & _ & Hz).
  unfold log_name in E.
  change (ord "." :: [x; y; z]) with ([ord "."; x; y] ++ [z]) in E.
  rewrite !app_comm_cons, !app_assoc in E.
  apply app_inj_tail in E as [_ <-]. exact Hz.
Qed.

Lemma csv_name_last (uid year month ext : pystr) (s : pystr) (c : char) :
  same_ignoring_case (lit "csv") ext = true ->
  csv_name uid year month ext = s ++ [c] ->
  ignorecase_eq (ord "v") c = true.
Proof.
  intros Hext E.
  change (lit "csv") with [ord "c"; ord "s"; ord "v"] in Hext.
  apply same_ignoring_case_3 in Hext as (x & y & z & -> & _ & _ & Hz).
  unfold csv_name in E.
  change (ord "." :: [x; y; z]) with ([ord "."; x; y] ++ [z]) in E.
  rewrite !app_comm_cons, !app_assoc in E.
  apply app_inj_tail in E as [_ <-]. exact Hz.
Qed.

(** C4 (the code departs from it): the name "123_2025-5-1.log" followed by
    a line feed is in neither grammar, so the claim gives it no record.
    [$] also matches just before a line feed that ends the string:
    [_parse_file] classifies the name as the log of uid 123 for
    2025-05-01. *)
Theorem parse_file_takes_trailing_line_feed (sz : N) :
  let name := lit "123_2025-5-1.log" ++ [10%N] in
  ~ log_grammar nd_value name /\
  ~ csv_grammar nd_value name /\
  _parse_file name (Ok sz) =
    Ok (Some (mkFileMeta name name (lit "log") (lit "123")
                (lit "2025-05-01") sz)).
Proof.
  cbv zeta. split; [|split].
  - intros (uid & year & month & day & ext & E &
            _ & _ & _ & _ & _ & _ & _ & _ & H).
    symmetry in E.
    apply (@log_name_last uid year month day ext _ _ H) in E.
    discriminate.
  - intros (uid & year & month & ext & E & _ & _ & _ & _ & _ & _ & H).
    symmetry in E.
    apply (@csv_name_last uid year month ext _ _ H) in E.
    discriminate.
  - reflexivity.
Qed.

(** ** Order on strings, and the sort *)

Lemma str_leb_refl (a : pystr) : str_leb a a = true.
Proof.
  induction a as [|x a IH]; simpl; [reflexivity|].
  now rewrite N.ltb_irrefl.
Qed.

Lemma str_leb_total (a b : pystr) :
  str_leb a b = false -> str_leb b a = true.
Proof.
  revert b. induction a as [|x a IH]; intros [|y b]; simpl; try discriminate;
    try reflexivity.
  destruct (N.ltb_spec x y); [discriminate|].
  destruct (N.ltb_spec y x); [reflexivity|]. apply IH.
Qed.

Lemma str_leb_antisym (a b : pystr) :
  str_leb a b = true -> str_leb b a = true -> a = b.
Proof.
  revert b. induction a as [|x a IH]; intros [|y b]; simpl; try discriminate;
    try reflexivity.
  destruct (N.ltb_spec x y), (N.ltb_spec y x); try discriminate; try lia.
  intros H1 H2. assert (x = y) by lia. subst. f_equal. now apply IH.
Qed.

Lemma str_leb_trans (a b c : pystr) :
  str_leb a b = true -> str_leb b c = true -> str_leb a c = true.
Proof.
  revert b c. induction a as [|x a IH]; intros [|y b] [|z c]; simpl;
    try discriminate; try reflexivity.
  destruct (N.ltb_spec x y), (N.ltb_spec y x), (N.ltb_spec y z),
    (N.ltb_spec z y), (N.ltb_spec x z), (N.ltb_spec z x);
    try discriminate; try reflexivity; try lia.
  apply IH.
Qed.

Lemma insert_by_name_perm (m : FileMeta) (l : list FileMeta) :
  Permutation (m :: l) (insert_by_name m l).
Proof.
  induction l as [|x l IH]; simpl; [reflexivity|].
  destruct (str_leb (file_name m) (file_name x)); [reflexivity|].
  rewrite perm_swap. now constructor.
Qed.

Lemma sort_by_name_perm (l : list FileMeta) :
  Permutation l (sort_by_name l).
Proof.
  induction l as [|m l IH]; simpl; [reflexivity|].
  rewrite <- insert_by_name_perm. now constructor.
Qed.

Lemma insert_by_name_sorted (m : FileMeta) (l : list FileMeta) :
  Sorted name_le l -> Sorted name_le (insert_by_name m l).
Proof.
  induction l as [|x l IH]; simpl; intros Hs.
  - repeat constructor.
  - destruct (str_leb (file_name m) (file_name x)) eqn:E.
    + constructor; [exact Hs | now constructor].
    + inversion Hs as [|? ? Hs' Hhd]; subst.
      constructor; [now apply IH|].
      apply str_leb_total in E.
      destruct l as [|y l]; simpl; [now constructor|].
      destruct (str_leb (file_name m) (file_name y)); constructor;
        [exact E | now inversion Hhd].
Qed.

Lemma sort_by_name_sorted (l : list FileMeta) :
  Sorted name_le (sort_by_name l).
Proof.
  induction l as [|m l IH]; simpl; [constructor|].
  now apply insert_by_name_sorted.
Qed.

Lemma str_leb_strict (a b : pystr) :
  a <> b -> str_leb a b = true -> str_leb b a = false.
Proof.
  intros Hne H. destruct (str_leb b a) eqn:E; [|reflexivity].
  exfalso. apply Hne. now apply str_leb_antisym.
Qed.

(** Two files with different names can be inserted in either order. *)
Lemma insert_by_name_comm (a b : FileMeta) (l : list FileMeta) :
  file_name a <> file_name b ->
  insert_by_name a (insert_by_name b l)
    = insert_by_name b (insert_by_name a l).
Proof.
  intros Hne.
  assert (Hne' : file_name b <> file_name a) by congruence.
  induction l as [|x l IH]; simpl.
  - destruct (str_leb (file_name a) (file_name b)) eqn:E.
    + now rewrite (str_leb_strict Hne E).
    + now rewrite (str_leb_total _ _ E).
  - destruct (str_leb (file_name b) (file_name x)) eqn:Ebx;
      destruct (str_leb (file_name a) (file_name x)) eqn:Eax; simpl.
    + destruct (str_leb (file_name a) (file_name b)) eqn:E.
      * now rewrite (str_leb_strict Hne E), Ebx.
      * now rewrite (str_leb_total _ _ E), Eax.
    + destruct (str_leb (file_name a) (file_name b)) eqn:E.
      * rewrite (str_leb_trans _ _ _ E Ebx) in Eax. discriminate.
      * now rewrite Eax, Ebx.
    + destruct (str_leb (file_name b) (file_name a)) eqn:E.
      * rewrite (str_leb_trans _ _ _ E Eax) in Ebx. discriminate.
      * now rewrite Eax, Ebx.
    + now rewrite Eax, Ebx, IH.
Qed.

(** The sorted sequence does not depend on the order of the input when the
    names are pairwise different. *)
Lemma sort_by_name_order_free (l1 l2 : list FileMeta) :
  Permutation l1 l2 ->
  NoDup (List.map file_name l1) ->
  sort_by_name l1 = sort_by_name l2.
Proof.
  induction 1 as [|x l1 l2 Hp IH|x y l|l1 l2 l3 Hp1 IH1 Hp2 IH2];
    simpl; intros Hnd.
  - reflexivity.
  - inversion Hnd; subst. now rewrite IH.
  - inversion Hnd as [|? ? Hy Hnd']; subst.
    apply insert_by_name_comm. intros E. apply Hy. simpl. now left.
  - rewrite IH1 by exact Hnd. apply IH2.
    eapply Permutation_NoDup; [|exact Hnd].
    now apply Permutation_map.
Qed.

(** ** [scan] *)

Local Abbreviation parse_all := (parse_all nd_value).
Local Abbreviation records := (records nd_value).
Local Abbreviation scan := (scan nd_value).
Local Abbreviation scan_visits := (scan_visits nd_value).

Lemma record_of_stattable (path : pystr) (sz : N) :
  exists r, _parse_file path (Ok sz) = Ok r /\
    record_of nd_value (path, Ok sz) =
      match r with Some m => [m] | None => [] end.
Proof.
  destruct (_parse_file_returns path sz) as [r Hr]. exists r.
  split; [exact Hr|]. unfold record_of. cbn [fst snd]. rewrite Hr.
  now destruct r.
Qed.

(** With every visited file stattable, the loops collect the records of the
    matching files in visiting order. *)
Lemma parse_all_stattable (visits : list (pystr * result N))
    (acc : list FileMeta) :
  forallb stattable visits = true ->
  parse_all visits acc = Ok (acc ++ records visits).
Proof.
  revert acc. induction visits as [|[path st] visits IH]; intros acc; simpl.
  - now rewrite app_nil_r.
  - rewrite andb_true_iff. intros [Hst Hrest].
    destruct st as [sz|e]; [|discriminate].
    destruct (record_of_stattable path sz) as (r & Hr & Hrec).
    rewrite Hr. simpl bind. rewrite IH by exact Hrest.
    unfold FileScanner.records. simpl flat_map. rewrite Hrec.
    destruct r; [now rewrite <- app_assoc | reflexivity].
Qed.

(** The first visited file whose size cannot be had ends the loops with
    its exception. *)
Lemma parse_all_unstattable (before after : list (pystr * result N))
    (path : pystr) (e : exn) (acc : list FileMeta) :
  forallb stattable before = true ->
  parse_all (before ++ (path, Raise e) :: after) acc = Raise e.
Proof.
  revert acc. induction before as [|[p st] before IH]; intros acc; simpl.
  - reflexivity.
  - rewrite andb_true_iff. intros [Hst Hrest].
    destruct st as [sz|e']; [|discriminate].
    destruct (_parse_file_returns p sz) as [r Hr].
    rewrite Hr. simpl bind. now apply IH.
Qed.

Lemma parse_all_ok_inv (visits : list (pystr * result N))
    (acc r : list FileMeta) :
  parse_all visits acc = Ok r ->
  forallb stattable visits = true /\ r = acc ++ records visits.
Proof.
  intros H.
  destruct (forallb stattable visits) eqn:E.
  - rewrite parse_all_stattable in H by exact E. now injection H as <-.
  - exfalso. revert acc H.
    induction visits as [|[p st] visits IH]; intros acc H; simpl in *;
      [discriminate|].
    destruct st as [sz|e]; [|discriminate].
    destruct (_parse_file_returns p sz) as [r' Hr].
    rewrite Hr in H. simpl in *. eapply IH; eauto.
Qed.

Lemma scan_directory (path : pystr) (l : bool) (entries : list (pystr * node)) :
  scan path (Some (Dir l entries)) = scan_visits (walk path (Dir l entries)).
Proof. reflexivity. Qed.

Lemma scan_visits_ok_inv (visits : list (pystr * result N))
    (rs : list FileMeta) :
  scan_visits visits = Ok rs ->
  forallb stattable visits = true /\ rs = sort_by_name (records visits).
Proof.
  unfold FileScanner.scan_visits.
  destruct (parse_all visits []) as [r|e] eqn:E; [|discriminate].
  simpl. intros [= <-]. apply parse_all_ok_inv in E as [Hs ->]. auto.
Qed.

(** C8 (as the code has it): whatever [scan] returns is sorted by
    [file_name], the order of Python on strings; two traversals that visit
    the same files in different orders return the same records, and the same
    sequence when no two records share a file name; and a directory with a
    log file, a csv file and an unrelated file gives exactly the two
    records, in the order of their names. *)
Theorem scan_sorted_by_file_name :
  (forall path target rs,
     scan path target = Ok rs -> Sorted name_le rs) /\
  (forall v1 v2 r1 r2,
     Permutation v1 v2 ->
     scan_visits v1 = Ok r1 -> scan_visits v2 = Ok r2 ->
     Permutation r1 r2 /\
     (NoDup (List.map file_name r1) -> r1 = r2)) /\
  scan (lit "data") (Some tree_three) =
    Ok [ mkFileMeta (lit "data/123_2025-5-1.log") (lit "123_2025-5-1.log")
           (lit "log") (lit "123") (lit "2025-05-01") 40;
         mkFileMeta (lit "data/9_2024-12.csv") (lit "9_2024-12.csv")
           (lit "csv") (lit "9") (lit "2024-12") 12 ].
Proof.
  split; [|split].
  - intros path [[[sz|e]|sz|l entries]|] rs H.
    + unfold FileScanner.scan in H.
      destruct (_parse_file path (Ok sz)) as [m|]; [|discriminate].
      simpl in H. injection H as <-. apply sort_by_name_sorted.
    + injection H as <-. constructor.
    + injection H as <-. constructor.
    + rewrite scan_directory in H. apply scan_visits_ok_inv in H as [_ ->].
      apply sort_by_name_sorted.
    + injection H as <-. constructor.
  - intros v1 v2 r1 r2 Hp H1 H2.
    apply scan_visits_ok_inv in H1 as [_ ->].
    apply scan_visits_ok_inv in H2 as [_ ->].
    assert (Hrec : Permutation (records v1) (records v2))
      by (now apply Permutation_flat_map).
    split.
    + now rewrite <- !sort_by_name_perm.
    + intros Hnd. apply sort_by_name_order_free; [exact Hrec|].
      eapply Permutation_NoDup; [|exact Hnd].
      apply Permutation_map. symmetry. apply sort_by_name_perm.
  - reflexivity.
Qed.

(** C5 (as the code has it): when the size of every visited file can be
    had, [scan] of a directory returns the records of exactly the files
    whose names match, sorted; a visited file whose size cannot be had is not
    skipped: its exception ends the scan, whether or not its name matches
    and whatever would have followed it. *)
Theorem scan_stat_failure_propagates :
  (forall path l entries,
     forallb stattable (walk path (Dir l entries)) = true ->
     exists rs,
       scan path (Some (Dir l entries)) = Ok rs /\
       Permutation rs (records (walk path (Dir l entries))) /\
       Sorted name_le rs) /\
  (forall path l entries before file e after,
     walk path (Dir l entries) = before ++ (file, Raise e) :: after ->
     forallb stattable before = true ->
     scan path (Some (Dir l entries)) = Raise e).
Proof.
  split.
  - intros path l entries Hs. rewrite scan_directory.
    unfold FileScanner.scan_visits. rewrite parse_all_stattable by exact Hs.
    simpl. eexists. split; [reflexivity|]. split.
    + symmetry. apply sort_by_name_perm.
    + apply sort_by_name_sorted.
  - intros path l entries before file e after Hw Hs.
    rewrite scan_directory. unfold FileScanner.scan_visits.
    rewrite Hw, parse_all_unstattable by exact Hs. reflexivity.
Qed.

End ScannerFacts.

(* ================================================================== *)
(** * Concrete scans                                                   *)
(* ================================================================== *)

Section ScanExamples.
Import Py FileScanner.

Lemma scan_sorted_by_file_name_witness :
  Sorted name_le
    [ mkFileMeta (lit "data/123_2025-5-1.log") (lit "123_2025-5-1.log")
        (lit "log") (lit "123") (lit "2025-05-01") 40;
      mkFileMeta (lit "data/9_2024-12.csv") (lit "9_2024-12.csv")
        (lit "csv") (lit "9") (lit "2024-12") 12 ].
Proof.
  apply (proj1 (scan_sorted_by_file_name ascii_only)
               (lit "data") (Some tree_three)).
  reflexivity.
Defined.

Lemma scan_stat_failure_propagates_witness :
  (exists rs, scan ascii_only (lit "data") (Some tree_three) = Ok rs /\
     List.length rs = 2%nat) /\
  scan ascii_only (lit "data") (Some tree_dangling)
    = Raise FileNotFoundError.
Proof.
  split.
  - destruct (proj1 (scan_stat_failure_propagates ascii_only)
                (lit "data") true
                [ (lit "123_2025-5-1.log", File (Ok 40%N));
                  (lit "README.txt", File (Ok 7%N));
                  (lit "9_2024-12.csv", File (Ok 12%N)) ] eq_refl)
      as (rs & Hr & Hp & _).
    exists rs. split; [exact Hr|].
    apply Permutation_length in Hp. exact Hp.
  - apply (proj2 (scan_stat_failure_propagates ascii_only)
             (lit "data") true
             [ (lit "123_2025-5-1.log", File (Ok 40%N));
               (lit "notes.txt", File (Raise FileNotFoundError)) ]
             [ (lit "data/123_2025-5-1.log", Ok 40%N) ]
             (lit "data/notes.txt") FileNotFoundError []);
      reflexivity.
Defined.

(** C8 (as stated, refuted): the sequence does depend on the order of the
    traversal.  A directory whose sub-directories a/ and b/ each hold a file
    5_2025-1-1.log gives the same two files to the walk whichever
    sub-directory is listed first; both results are sorted by file name, and
    they are different sequences: the record of the file visited first comes
    first. *)
Lemma scan_order_follows_traversal :
  let in_a := mkFileMeta (lit "data/a/5_2025-1-1.log") (lit "5_2025-1-1.log")
                (lit "log") (lit "5") (lit "2025-01-01") 1 in
  let in_b := mkFileMeta (lit "data/b/5_2025-1-1.log") (lit "5_2025-1-1.log")
                (lit "log") (lit "5") (lit "2025-01-01") 2 in
  Permutation (walk (lit "data") tree_twins)
              (walk (lit "data") tree_twins_swapped) /\
  scan ascii_only (lit "data") (Some tree_twins) = Ok [in_b; in_a] /\
  scan ascii_only (lit "data") (Some tree_twins_swapped) = Ok [in_a; in_b] /\
  Sorted name_le [in_b; in_a] /\ Sorted name_le [in_a; in_b] /\
  [in_b; in_a] <> [in_a; in_b].
Proof.
  cbv zeta. split; [apply perm_swap|].
  split; [reflexivity|]. split; [reflexivity|].
  split; [|split]; try discriminate;
    repeat constructor.
Qed.

(** C5 (as stated, refuted): in a directory that holds a valid log file and
    a dangling link, the link is not skipped.  The log file alone would give
    one record; the scan of the directory raises the [FileNotFoundError] of
    the link and returns nothing. *)
Lemma scan_aborts_on_dangling_link :
  records ascii_only [(lit "data/123_2025-5-1.log", Ok 40%N)] =
    [ mkFileMeta (lit "data/123_2025-5-1.log") (lit "123_2025-5-1.log")
        (lit "log") (lit "123") (lit "2025-05-01") 40 ] /\
  scan ascii_only (lit "data") (Some tree_dangling)
    = Raise FileNotFoundError /\
  ~ exists rs, scan ascii_only (lit "data") (Some tree_dangling) = Ok rs.
Proof.
  split; [reflexivity|]. split; [reflexivity|].
  intros [rs H]. discriminate.
Qed.

End ScanExamples.

(* ================================================================== *)
(** * Grouping by uid                                                  *)
(* ================================================================== *)

Section GroupingFacts.
Import Py FileScanner.

Local Abbreviation get := (dict_get str_eq_dec).
Local Abbreviation set := (dict_set str_eq_dec).
Local Abbreviation mem := (dict_mem str_eq_dec).

Lemma with_uid_app (u : pystr) (l1 l2 : list FileMeta) :
  with_uid u (l1 ++ l2) = with_uid u l1 ++ with_uid u l2.
Proof. apply filter_app. Qed.

Lemma first_seen_snoc (l : list pystr) (u : pystr) :
  first_seen (l ++ [u]) =
    if in_dec str_eq_dec u (first_seen l) then first_seen l
    else first_seen l ++ [u].
Proof. unfold first_seen. now rewrite fold_left_app. Qed.

Lemma concat_values_set (u : pystr) (r x : list FileMeta) (g : groups) :
  get u g = Some r ->
  Permutation (concat (dict_values (set u (r ++ x) g)))
              (concat (dict_values g) ++ x).
Proof.
  unfold dict_values.
  induction g as [|[k v] g IH]; simpl; [discriminate|].
  destruct (str_eq_dec u k) as [->|Hne]; simpl.
  - intros [= ->]. rewrite <- !app_assoc.
    apply Permutation_app_head. apply Permutation_app_comm.
  - intros H. rewrite (IH H). now rewrite app_assoc.
Qed.

Lemma group_item_keeps (done : list FileMeta) (g : groups)
    (item : FileMeta) :
  groups_of done g ->
  exists g', group_item g item = Ok g' /\ groups_of (done ++ [item]) g'.
Proof.
  intros (Hget & Hkeys & Hperm). unfold group_item. cbv zeta.
  assert (Hlook : forall (g1 : groups) r,
            get (uid item) g1 = Some r ->
            (forall u, u <> uid item -> get u g1 = get u g) ->
            with_uid (uid item) done = r ->
            forall u, get u (set (uid item) (r ++ [item]) g1)
                      = group_of u (done ++ [item])).
  { intros g1 r Hr Hother Hdone u. unfold group_of.
    rewrite with_uid_app. simpl.
    destruct (str_eq_dec (uid item) u) as [<-|Hne].
    - rewrite dict_get_set_same, Hdone. now destruct r.
    - rewrite dict_get_set_other by congruence.
      rewrite Hother by congruence. rewrite app_nil_r. apply Hget. }
  destruct (mem (uid item) g) eqn:Hm.
  - unfold dict_mem in Hm.
    destruct (get (uid item) g) as [r|] eqn:Hr; [|discriminate].
    eexists. split; [reflexivity|]. split; [|split].
    + apply Hlook; auto. rewrite Hget in Hr. unfold group_of in Hr.
      destruct (with_uid (uid item) done); [discriminate | congruence].
    + rewrite dict_keys_set. unfold dict_mem. rewrite Hr.
      rewrite map_app. change (List.map uid [item]) with [uid item].
      rewrite first_seen_snoc.
      destruct (in_dec str_eq_dec (uid item)
                       (first_seen (List.map uid done))) as [|Hn];
        [exact Hkeys|].
      exfalso. apply Hn. rewrite <- Hkeys.
      apply (dict_mem_In str_eq_dec). unfold dict_mem. now rewrite Hr.
    + rewrite (@concat_values_set (uid item) r [item] g Hr).
      now apply Permutation_app_tail.
  - assert (Hfresh : get (uid item) (set (uid item) [] g) = Some [])
      by apply dict_get_set_same.
    rewrite Hfresh. eexists. split; [reflexivity|].
    assert (Hnone : with_uid (uid item) done = []).
    { unfold dict_mem in Hm. specialize (Hget (uid item)).
      unfold group_of in Hget.
      destruct (get (uid item) g); [discriminate|].
      now destruct (with_uid (uid item) done). }
    split; [|split].
    + apply Hlook; auto.
      intros u Hu. now apply dict_get_set_other.
    + rewrite dict_keys_set, dict_mem_set.
      destruct (str_eq_dec (uid item) (uid item)); [|congruence].
      rewrite dict_keys_set, Hm.
      rewrite map_app. change (List.map uid [item]) with [uid item].
      rewrite first_seen_snoc.
      destruct (in_dec str_eq_dec (uid item)
                       (first_seen (List.map uid done))) as [Hin|];
        [|now rewrite Hkeys].
      exfalso. rewrite <- Hkeys in Hin.
      apply (dict_mem_In str_eq_dec) in Hin. congruence.
    + rewrite (@concat_values_set (uid item) [] [item] _ Hfresh).
      apply Permutation_app_tail.
      rewrite (dict_set_fresh str_eq_dec _ _ _ Hm).
      unfold dict_values. rewrite map_app, concat_app. simpl.
      now rewrite app_nil_r.
Qed.

Lemma group_items_keeps (file_list : list FileMeta) :
  forall done g, groups_of done g ->
  exists g', group_items file_list g = Ok g' /\
             groups_of (done ++ file_list) g'.
Proof.
  induction file_list as [|item rest IH]; intros done g Hg; simpl.
  - exists g. now rewrite app_nil_r.
  - destruct (@group_item_keeps done g item Hg) as (g1 & -> & Hg1). simpl.
    destruct (IH _ _ Hg1) as (g' & Hr & Hg').
    exists g'. split; [exact Hr|]. now rewrite <- app_assoc in Hg'.
Qed.

Lemma groups_of_nil : groups_of [] [].
Proof.
  split; [intros u; reflexivity | split; [reflexivity | constructor]].
Qed.

Lemma first_seen_NoDup (l : list pystr) : NoDup (first_seen l).
Proof.
  induction l as [|u l IH] using rev_ind; [constructor|].
  rewrite first_seen_snoc.
  destruct (in_dec str_eq_dec u (first_seen l)) as [|Hn]; [exact IH|].
  eapply Permutation_NoDup; [apply Permutation_cons_append|].
  now constructor.
Qed.

Lemma dict_get_of_In (k : pystr) (v : list FileMeta) (g : groups) :
  NoDup (dict_keys g) -> In (k, v) g -> get k g = Some v.
Proof.
  unfold dict_keys. induction g as [|[k' v'] g IH]; simpl; [tauto|].
  intros Hnd [[= -> ->]|Hin].
  - now destruct (str_eq_dec k k).
  - inversion Hnd as [|? ? Hk Hnd']; subst.
    destruct (str_eq_dec k k') as [->|]; [|now apply IH].
    exfalso. apply Hk. now apply (in_map fst) in Hin.
Qed.

(** X9: [group_by_uid] never fails, and a lookup in its result gives, for a
    uid that occurs, exactly the records of that uid in the order they had
    in the input, and nothing for a uid that does not occur. *)
Theorem group_by_uid_lookup (file_list : list FileMeta) :
  exists g, group_by_uid file_list = Ok g /\
    forall u, get u g = group_of u file_list.
Proof.
  destruct (@group_items_keeps file_list [] [] groups_of_nil)
    as (g & Hr & Hget & _).
  exists g. split; [exact Hr | exact Hget].
Qed.

(** X10: the grouping is a partition of the input: its keys are the
    different uids in the order in which they first occur, no group is
    empty, and the groups together hold every record exactly once. *)
Theorem group_by_uid_partition (file_list : list FileMeta) (g : groups) :
  group_by_uid file_list = Ok g ->
  dict_keys g = first_seen (List.map uid file_list) /\
  NoDup (dict_keys g) /\
  Forall (fun grp => grp <> []) (dict_values g) /\
  Permutation (concat (dict_values g)) file_list.
Proof.
  intros H.
  destruct (@group_items_keeps file_list [] [] groups_of_nil)
    as (g' & Hr & Hget & Hk & Hp).
  unfold group_by_uid in H. rewrite Hr in H. injection H as <-.
  simpl in Hk, Hp. change ([] ++ file_list) with file_list in Hget.
  assert (Hnd : NoDup (dict_keys g'))
    by (rewrite Hk; apply first_seen_NoDup).
  repeat split; auto.
  apply Forall_forall. intros grp Hin. unfold dict_values in Hin.
  apply in_map_iff in Hin as ([k v] & <- & Hin). simpl.
  apply (@dict_get_of_In k v g' Hnd) in Hin. rewrite Hget in Hin.
  unfold group_of in Hin.
  destruct (with_uid k file_list); [discriminate|].
  injection Hin as <-. discriminate.
Qed.

Lemma group_by_uid_partition_witness :
  exists g,
    group_by_uid
      [ mkFileMeta (lit "a/2_2025-1-1.log") (lit "2_2025-1-1.log")
          (lit "log") (lit "2") (lit "2025-01-01") 1;
        mkFileMeta (lit "a/1_2025-1.csv") (lit "1_2025-1.csv")
          (lit "csv") (lit "1") (lit "2025-01") 2;
        mkFileMeta (lit "a/2_2025-1-2.log") (lit "2_2025-1-2.log")
          (lit "log") (lit "2") (lit "2025-01-02") 3 ] = Ok g /\
    dict_keys g = [lit "2"; lit "1"].
Proof.
  eexists. split; [reflexivity|].
  apply (@group_by_uid_partition
           [ mkFileMeta (lit "a/2_2025-1-1.log") (lit "2_2025-1-1.log")
               (lit "log") (lit "2") (lit "2025-01-01") 1;
             mkFileMeta (lit "a/1_2025-1.csv") (lit "1_2025-1.csv")
               (lit "csv") (lit "1") (lit "2025-01") 2;
             mkFileMeta (lit "a/2_2025-1-2.log") (lit "2_2025-1-2.log")
               (lit "log") (lit "2") (lit "2025-01-02") 3 ]).
  reflexivity.
Defined.

End GroupingFacts.

(* ================================================================== *)
(** * Further properties of the scanner                                *)
(* ================================================================== *)

Section ScannerMore.
Import Py FileScanner.
Variable nd_value : char -> option N.

Local Abbreviation digits := (digits nd_value).
Local Abbreviation _parse_file := (_parse_file nd_value).
Local Abbreviation records := (records nd_value).
Local Abbreviation scan := (scan nd_value).
Local Abbreviation scan_visits := (scan_visits nd_value).

(** X11: every name of the two grammars is classified, whatever the case
    of the letters of its extension: a log name gives a log record and a csv
    name a csv record, with the path and the size as given, the uid as
    written and the date with month and day padded to two digits. *)
Theorem grammar_names_are_classified (path uid year month : pystr) (sz : N) :
  digits uid = true -> uid <> [] ->
  digits year = true -> List.length year = 4%nat ->
  ascii_digits month = true -> one_or_two month = true ->
  (forall day ext,
     ascii_digits day = true -> one_or_two day = true ->
     same_ignoring_case (lit "log") ext = true ->
     basename path = log_name uid year month day ext ->
     _parse_file path (Ok sz) =
       Ok (Some (mkFileMeta path (log_name uid year month day ext)
                   (lit "log") uid
                   (year ++ ord "-" :: pad2 month ++ ord "-" :: pad2 day)
                   sz))) /\
  (forall ext,
     same_ignoring_case (lit "csv") ext = true ->
     basename path = csv_name uid year month ext ->
     _parse_file path (Ok sz) =
       Ok (Some (mkFileMeta path (csv_name uid year month ext) (lit "csv")
                   uid (year ++ ord "-" :: pad2 month) sz))).
Proof.
  intros Hu Hu0 Hy Hy4 Hm Hm12. split.
  - intros day ext Hd Hd12 Hext Hb.
    now apply _parse_file_log.
  - intros ext Hext Hb.
    now apply _parse_file_csv.
Qed.

(** X12: [_parse_file] raises nothing of its own: [int()] and the
    unpacking of the groups never fail on what the patterns captured, so the
    only exception that leaves it is the one of a failed [stat]. *)
Theorem parse_file_raises_only_stat_errors (path : pystr) (st : result N)
    (e : exn) :
  _parse_file path st = Raise e -> st = Raise e.
Proof.
  destruct st as [sz|e'].
  - destruct (_parse_file_returns nd_value path sz) as [r Hr].
    rewrite Hr. discriminate.
  - now intros [= ->].
Qed.

(** X13: padding does not matter: two log names that differ only in that
    one writes month and day with one digit and the other with a leading
    zero (and in the case of the extension) give records with the same uid,
    type and date. *)
Theorem padding_does_not_matter (p1 p2 uid year ext1 ext2 : pystr)
    (m d : char) (s1 s2 : N) :
  digits uid = true -> uid <> [] ->
  digits year = true -> List.length year = 4%nat ->
  ascii_digit m = true -> ascii_digit d = true ->
  same_ignoring_case (lit "log") ext1 = true ->
  same_ignoring_case (lit "log") ext2 = true ->
  basename p1 = log_name uid year [m] [d] ext1 ->
  basename p2 = log_name uid year [ord "0"; m] [ord "0"; d] ext2 ->
  exists r1 r2,
    _parse_file p1 (Ok s1) = Ok (Some r1) /\
    _parse_file p2 (Ok s2) = Ok (Some r2) /\
    FileScanner.uid r1 = FileScanner.uid r2 /\
    file_type r1 = file_type r2 /\
    date_str r1 = date_str r2.
Proof.
  intros Hu Hu0 Hy Hy4 Hm Hd He1 He2 Hb1 Hb2.
  assert (Hm1 : ascii_digits [m] = true) by (simpl; now rewrite Hm).
  assert (Hd1 : ascii_digits [d] = true) by (simpl; now rewrite Hd).
  assert (Hm2 : ascii_digits [ord "0"; m] = true) by (simpl; now rewrite Hm).
  assert (Hd2 : ascii_digits [ord "0"; d] = true) by (simpl; now rewrite Hd).
  eexists; eexists. split; [|split].
  - apply (@_parse_file_log nd_value p1 uid year [m] [d] ext1 s1);
      auto.
  - apply (@_parse_file_log nd_value p2 uid year [ord "0"; m] [ord "0"; d]
             ext2 s2); auto.
  - repeat split.
Qed.

(** ** The sort is stable *)

Lemma with_name_insert (n : pystr) (m : FileMeta) (l : list FileMeta) :
  with_name n (insert_by_name m l) = with_name n (m :: l).
Proof.
  induction l as [|x l IH]; [reflexivity|].
  simpl insert_by_name.
  destruct (str_leb (file_name m) (file_name x)) eqn:E; [reflexivity|].
  unfold with_name in *. simpl filter in *. rewrite IH.
  destruct (str_eq_dec (file_name x) n) as [Hx|];
    destruct (str_eq_dec (file_name m) n) as [Hm|]; try reflexivity.
  exfalso. rewrite Hx, Hm, str_leb_refl in E. discriminate.
Qed.

Lemma with_name_sort (n : pystr) (l : list FileMeta) :
  with_name n (sort_by_name l) = with_name n l.
Proof.
  induction l as [|m l IH]; [reflexivity|].
  change (sort_by_name (m :: l)) with (insert_by_name m (sort_by_name l)).
  rewrite with_name_insert. unfold with_name in *. simpl. now rewrite IH.
Qed.

(** X14: the sort of [scan] is stable: the records that share a file name
    (files of the same name in different directories) come out in the order
    in which the walk visited their files. *)
Theorem scan_keeps_visiting_order_of_equal_names (path : pystr) (l : bool)
    (entries : list (pystr * node)) (rs : list FileMeta) (n : pystr) :
  scan path (Some (Dir l entries)) = Ok rs ->
  with_name n rs = with_name n (records (walk path (Dir l entries))).
Proof.
  intros H. rewrite scan_directory in H.
  apply scan_visits_ok_inv in H as [_ ->]. apply with_name_sort.
Qed.

(** ** What a scan returns *)

Lemma records_length (visits : list (pystr * result N)) :
  (List.length (records visits) <= List.length visits)%nat.
Proof.
  induction visits as [|v visits IH]; [apply le_n|].
  unfold FileScanner.records in *. simpl. rewrite length_app.
  unfold record_of at 1.
  destruct (_parse_file (fst v) (snd v)) as [[m|]|e]; simpl; lia.
Qed.

Lemma scan_ok_sorted (path : pystr) (target : option node)
    (rs : list FileMeta) :
  scan path target = Ok rs -> Sorted name_le rs.
Proof.
  destruct target as [[[sz|e]|sz|l entries]|]; intros H.
  - unfold FileScanner.scan in H.
    destruct (_parse_file path (Ok sz)) as [m|]; [|discriminate].
    simpl in H. injection H as <-. apply sort_by_name_sorted.
  - injection H as <-. constructor.
  - injection H as <-. constructor.
  - rewrite scan_directory in H. apply scan_visits_ok_inv in H as [_ ->].
    apply sort_by_name_sorted.
  - injection H as <-. constructor.
Qed.

(** X15: every record a scan of a directory returns is the record of a file
    the walk visited: its path and size are those of the visit, its name is
    the base name of its path, its type is log or csv and its uid a
    non-empty string of digits; and there are no more records than visited
    files. *)
Theorem scan_records_are_of_visited_files (path : pystr) (l : bool)
    (entries : list (pystr * node)) (rs : list FileMeta) :
  scan path (Some (Dir l entries)) = Ok rs ->
  (List.length rs <= List.length (walk path (Dir l entries)))%nat /\
  forall m, In m rs ->
    In (file_path m, Ok (file_size m)) (walk path (Dir l entries)) /\
    file_name m = basename (file_path m) /\
    (file_type m = lit "log" \/ file_type m = lit "csv") /\
    digits (uid m) = true /\ uid m <> [].
Proof.
  intros H. rewrite scan_directory in H.
  apply scan_visits_ok_inv in H as [_ ->]. split.
  - rewrite <- (Permutation_length (sort_by_name_perm _)).
    apply records_length.
  - intros m Hin.
    apply (Permutation_in m (Permutation_sym (sort_by_name_perm _))) in Hin.
    unfold FileScanner.records in Hin.
    apply in_flat_map in Hin as ([p st] & Hv & Hm).
    unfold record_of in Hm. cbn [fst snd] in Hm.
    destruct (_parse_file p st) as [[m'|]|e] eqn:E; simpl in Hm;
      try contradiction.
    destruct Hm as [->|[]].
    apply _parse_file_record_inv in E.
    destruct E as (sz & nl & -> & Hp & Hn & Hs & _ & Hg).
    rewrite Hp, Hs. split; [exact Hv|]. split; [exact Hn|].
    destruct Hg as [(y & mo & d & ext & _ & Ht & Hu & Hu0 & _)
                   |(y & mo & ext & _ & Ht & Hu & Hu0 & _)]; auto.
Qed.

(** ** Scanning, then grouping *)

Lemma name_le_trans (a b c : FileMeta) :
  name_le a b -> name_le b c -> name_le a c.
Proof. unfold name_le. apply str_leb_trans. Qed.

Lemma filter_sorted (f : FileMeta -> bool) (l : list FileMeta) :
  Sorted name_le l -> Sorted name_le (filter f l).
Proof.
  intros H. apply StronglySorted_Sorted.
  apply Sorted_StronglySorted in H;
    [|intros a b c; apply name_le_trans].
  induction H as [|a l Hl IH Ha]; simpl; [constructor|].
  destruct (f a); [|exact IH].
  constructor; [exact IH|].
  rewrite Forall_forall in *. intros x Hx.
  apply filter_In in Hx as [Hx _]. now apply Ha.
Qed.

(** X16: grouping what a scan returned never fails, and every group comes
    out sorted by file name and holds records of its own uid only: the
    order of the scan carries over to each streamer's list. *)
Theorem scan_groups_are_sorted (path : pystr) (target : option node)
    (rs : list FileMeta) :
  scan path target = Ok rs ->
  exists g, group_by_uid rs = Ok g /\
    forall u grp, dict_get str_eq_dec u g = Some grp ->
      Sorted name_le grp /\ Forall (fun m => uid m = u) grp.
Proof.
  intros H. apply scan_ok_sorted in H.
  destruct (@group_items_keeps rs [] [] groups_of_nil)
    as (g & Hr & Hget & _).
  exists g. split; [exact Hr|].
  intros u grp Hu. rewrite Hget in Hu.
  change ([] ++ rs) with rs in Hu. unfold group_of in Hu.
  assert (Hgrp : grp = with_uid u rs).
  { destruct (with_uid u rs); [discriminate | congruence]. }
  subst grp. split.
  - now apply filter_sorted.
  - apply Forall_forall. intros m Hm. unfold with_uid in Hm.
    apply filter_In in Hm as [_ Hm].
    now destruct (str_eq_dec (uid m) u).
Qed.

(** ** Name order and date order *)

Lemma str_leb_app_head (p a b : pystr) :
  str_leb (p ++ a) (p ++ b) = str_leb a b.
Proof.
  induction p as [|c p IH]; [reflexivity|].
  simpl. now rewrite N.ltb_irrefl.
Qed.

Lemma str_leb_same_length (a b s t : pystr) :
  List.length a = List.length b ->
  str_leb (a ++ s) (b ++ t) = true -> str_leb a b = true.
Proof.
  revert b. induction a as [|x a IH]; intros [|y b]; simpl;
    try discriminate; [reflexivity|].
  intros [= Hl].
  destruct (x <? y)%N; [reflexivity|].
  destruct (y <? x)%N; [discriminate|]. now apply IH.
Qed.

Lemma pad2_two (s : pystr) : List.length s = 2%nat -> pad2 s = s.
Proof. now destruct s as [|a [|b [|? ?]]]. Qed.

Lemma one_or_two_two (s : pystr) :
  List.length s = 2%nat -> one_or_two s = true.
Proof. now destruct s as [|a [|b [|? ?]]]. Qed.

(** X17: for the logs of one streamer whose names write month and day with
    two digits, the order of the names is the order of the dates: when the
    name of one is at most the name of the other, so is its [date_str].
    With a month or day of one digit it is not: 1_2025-10-1.log sorts before
    1_2025-9-1.log, whose date is the earlier one. *)
Theorem padded_names_sort_by_date :
  (forall uid y1 m1 d1 e1 y2 m2 d2 e2 p1 p2 s1 s2,
     digits uid = true -> uid <> [] ->
     digits y1 = true -> List.length y1 = 4%nat ->
     ascii_digits m1 = true -> List.length m1 = 2%nat ->
     ascii_digits d1 = true -> List.length d1 = 2%nat ->
     same_ignoring_case (lit "log") e1 = true ->
     digits y2 = true -> List.length y2 = 4%nat ->
     ascii_digits m2 = true -> List.length m2 = 2%nat ->
     ascii_digits d2 = true -> List.length d2 = 2%nat ->
     same_ignoring_case (lit "log") e2 = true ->
     basename p1 = log_name uid y1 m1 d1 e1 ->
     basename p2 = log_name uid y2 m2 d2 e2 ->
     exists r1 r2,
       _parse_file p1 (Ok s1) = Ok (Some r1) /\
       _parse_file p2 (Ok s2) = Ok (Some r2) /\
       (name_le r1 r2 -> str_leb (date_str r1) (date_str r2) = true)) /\
  (forall s1 s2,
     exists r1 r2,
       _parse_file (lit "1_2025-10-1.log") (Ok s1) = Ok (Some r1) /\
       _parse_file (lit "1_2025-9-1.log") (Ok s2) = Ok (Some r2) /\
       name_le r1 r2 /\
       str_leb (date_str r1) (date_str r2) = false).
Proof.
  split.
  - intros uid y1 m1 d1 e1 y2 m2 d2 e2 p1 p2 s1 s2
           Hu Hu0 Hy1 Hl1 Hm1 Hlm1 Hd1 Hld1 He1
           Hy2 Hl2 Hm2 Hlm2 Hd2 Hld2 He2 Hb1 Hb2.
    eexists; eexists. split; [|split].
    + apply (@_parse_file_log nd_value p1 uid y1 m1 d1 e1 s1); auto;
        now apply one_or_two_two.
    + apply (@_parse_file_log nd_value p2 uid y2 m2 d2 e2 s2); auto;
        now apply one_or_two_two.
    + unfold name_le. cbn [file_name date_str].
      rewrite !pad2_two by assumption.
      unfold log_name. rewrite str_leb_app_head.
      cbn [str_leb]. rewrite N.ltb_irrefl.
      intros H.
      replace (y1 ++ ord "-" :: m1 ++ ord "-" :: d1 ++ ord "." :: e1)
        with ((y1 ++ ord "-" :: m1 ++ ord "-" :: d1) ++ ord "." :: e1) in H
        by (now rewrite <- !app_assoc, <- !app_comm_cons, <- !app_assoc).
      replace (y2 ++ ord "-" :: m2 ++ ord "-" :: d2 ++ ord "." :: e2)
        with ((y2 ++ ord "-" :: m2 ++ ord "-" :: d2) ++ ord "." :: e2) in H
        by (now rewrite <- !app_assoc, <- !app_comm_cons, <- !app_assoc).
      apply str_leb_same_length in H; [exact H|].
      rewrite !length_app. simpl. rewrite !length_app. simpl. lia.
  - intros s1 s2. eexists; eexists.
    split; [reflexivity|]. split; [reflexivity|]. split; reflexivity.
Qed.

(** ** The shape of [date_str] *)

Lemma decimal_le_9 (c : char) (d : N) :
  (forall c v, nd_value c = Some v -> (v <= 9)%N) ->
  decimal nd_value c = Some d -> (d <= 9)%N.
Proof.
  intros Hnd. unfold decimal. destruct (c <? 128)%N; [|apply Hnd].
  destruct ((48 <=? c) && (c <=? 57))%N eqn:E; [|discriminate].
  apply andb_true_iff in E as [_ E]. apply N.leb_le in E.
  intros [= <-]. lia.
Qed.

Lemma py_int_lt_100 (s : pystr) (n : N) :
  (forall c v, nd_value c = Some v -> (v <= 9)%N) ->
  one_or_two s = true -> py_int nd_value s = Ok n -> (n < 100)%N.
Proof.
  intros Hnd. destruct s as [|a [|b [|? ?]]]; try discriminate; intros _.
  - unfold py_int, int_digits.
    destruct (decimal nd_value a) as [x|] eqn:Ea; [|discriminate].
    intros [= <-]. apply (decimal_le_9 _ Hnd) in Ea. lia.
  - unfold py_int, int_digits.
    destruct (decimal nd_value a) as [x|] eqn:Ea; [|discriminate].
    destruct (decimal nd_value b) as [y|] eqn:Eb; [|discriminate].
    intros H. apply (decimal_le_9 _ Hnd) in Ea.
    apply (decimal_le_9 _ Hnd) in Eb.
    assert (Hn : (10 * (10 * 0 + x) + y = n)%N) by congruence. lia.
Qed.

Lemma format_02d_small (n : N) :
  (n < 100)%N ->
  List.length (format_02d n) = 2%nat /\ ascii_digits (format_02d n) = true.
Proof.
  intros Hn.
  assert (H : forallb (fun k =>
                (List.length (format_02d (N.of_nat k)) =? 2)%nat
                && ascii_digits (format_02d (N.of_nat k)))
              (seq 0 100) = true) by (vm_compute; reflexivity).
  rewrite forallb_forall in H. specialize (H (N.to_nat n)).
  rewrite N2Nat.id in H.
  assert (Hin : In (N.to_nat n) (seq 0 100)) by (apply in_seq; lia).
  apply H in Hin. apply andb_true_iff in Hin as [Hl Hd].
  apply Nat.eqb_eq in Hl. auto.
Qed.

(** X18: with a digit table whose values are the decimal digits 0 to 9,
    the [date_str] of a record has a fixed shape whatever the file name
    wrote: the four digits of the year, a dash and two ASCII digits for the
    month, and for a log a dash and two ASCII digits for the day; ten
    characters for a log and seven for a csv. *)
Theorem date_str_has_fixed_shape (path : pystr) (st : result N)
    (m : FileMeta) :
  (forall c v, nd_value c = Some v -> (v <= 9)%N) ->
  _parse_file path st = Ok (Some m) ->
  exists year mm,
    digits year = true /\ List.length year = 4%nat /\
    ascii_digits mm = true /\ List.length mm = 2%nat /\
    ((file_type m = lit "log" /\
      exists dd, ascii_digits dd = true /\ List.length dd = 2%nat /\
        date_str m = year ++ ord "-" :: mm ++ ord "-" :: dd /\
        List.length (date_str m) = 10%nat) \/
     (file_type m = lit "csv" /\
      date_str m = year ++ ord "-" :: mm /\
      List.length (date_str m) = 7%nat)).
Proof.
  intros Hnd. unfold FileScanner._parse_file.
  destruct st as [sz|e]; [|discriminate]. simpl bind.
  destruct (re_match nd_value true (LOG_PATTERN) (basename path))
    as [g|] eqn:E.
  - apply re_match_log_inv in E.
    destruct E as (u & year & month & day & ext & nl & Hs & -> &
                   Hu & Hu0 & Hy & Hy4 & Hm & Hm12 & Hd & Hd12 & Hext & Hnl).
    destruct (@py_int_digits nd_value month Hm
                (@one_or_two_nonempty month Hm12)) as [a Ha].
    destruct (@py_int_digits nd_value day Hd
                (@one_or_two_nonempty day Hd12)) as [b Hb].
    rewrite Ha. simpl bind. rewrite Hb. simpl bind. intros [= <-].
    destruct (format_02d_small (py_int_lt_100 _ Hnd Hm12 Ha)) as [La Da].
    destruct (format_02d_small (py_int_lt_100 _ Hnd Hd12 Hb)) as [Lb Db].
    exists year, (format_02d a). repeat (split; [assumption|]).
    left. split; [reflexivity|]. exists (format_02d b).
    repeat (split; [assumption|]). cbn [date_str]. split; [reflexivity|].
    rewrite !length_app. simpl. rewrite !length_app. simpl. lia.
  - destruct (re_match nd_value true (CSV_PATTERN) (basename path))
      as [g|] eqn:E'; [|discriminate].
    apply re_match_csv_inv in E'.
    destruct E' as (u & year & month & ext & nl & Hs & -> &
                    Hu & Hu0 & Hy & Hy4 & Hm & Hm12 & Hext & Hnl).
    destruct (@py_int_digits nd_value month Hm
                (@one_or_two_nonempty month Hm12)) as [a Ha].
    rewrite Ha. simpl bind. intros [= <-].
    destruct (format_02d_small (py_int_lt_100 _ Hnd Hm12 Ha)) as [La Da].
    exists year, (format_02d a). repeat (split; [assumption|]).
    right. split; [reflexivity|]. cbn [date_str]. split; [reflexivity|].
    rewrite !length_app. simpl. lia.
Qed.

End ScannerMore.

(* ================================================================== *)
(** * Concrete file names and scans                                    *)
(* ================================================================== *)

Section ScannerMoreExamples.
Import Py FileScanner.

Lemma grammar_names_are_classified_witness :
  _parse_file ascii_only (lit "logs/42_2025-7-4.LOG") (Ok 10%N) =
    Ok (Some (mkFileMeta (lit "logs/42_2025-7-4.LOG") (lit "42_2025-7-4.LOG")
                (lit "log") (lit "42") (lit "2025-07-04") 10)).
Proof.
  apply (proj1 (@grammar_names_are_classified ascii_only
                  (lit "logs/42_2025-7-4.LOG") (lit "42") (lit "2025")
                  (lit "7") 10%N eq_refl ltac:(discriminate)
                  eq_refl eq_refl eq_refl eq_refl)
               (lit "4") (lit "LOG") eq_refl eq_refl eq_refl eq_refl).
Defined.

Lemma parse_file_raises_only_stat_errors_witness :
  (Raise PermissionError : result N) = Raise PermissionError.
Proof.
  apply (@parse_file_raises_only_stat_errors ascii_only
           (lit "logs/42_2025-7-4.log") (Raise PermissionError)
           PermissionError).
  reflexivity.
Defined.

Lemma padding_does_not_matter_witness :
  exists r1 r2,
    _parse_file ascii_only (lit "a/42_2025-7-4.log") (Ok 1%N)
      = Ok (Some r1) /\
    _parse_file ascii_only (lit "b/42_2025-07-04.LOG") (Ok 2%N)
      = Ok (Some r2) /\
    uid r1 = uid r2 /\ file_type r1 = file_type r2 /\
    date_str r1 = date_str r2.
Proof.
  apply (@padding_does_not_matter ascii_only
           (lit "a/42_2025-7-4.log") (lit "b/42_2025-07-04.LOG")
           (lit "42") (lit "2025") (lit "log") (lit "LOG")
           (ord "7") (ord "4") 1%N 2%N);
    solve [reflexivity | discriminate].
Defined.

Lemma scan_keeps_visiting_order_of_equal_names_witness :
  exists rs,
    scan ascii_only (lit "data") (Some tree_twins) = Ok rs /\
    with_name (lit "5_2025-1-1.log") rs =
      [ mkFileMeta (lit "data/b/5_2025-1-1.log") (lit "5_2025-1-1.log")
          (lit "log") (lit "5") (lit "2025-01-01") 2;
        mkFileMeta (lit "data/a/5_2025-1-1.log") (lit "5_2025-1-1.log")
          (lit "log") (lit "5") (lit "2025-01-01") 1 ].
Proof.
  eexists. split; [reflexivity|].
  apply (@scan_keeps_visiting_order_of_equal_names ascii_only
           (lit "data") true
           [ (lit "b", Dir true [ (lit "5_2025-1-1.log", File (Ok 2%N)) ]);
             (lit "a", Dir true [ (lit "5_2025-1-1.log", File (Ok 1%N)) ]) ]
           _ (lit "5_2025-1-1.log")).
  reflexivity.
Defined.

Lemma scan_records_are_of_visited_files_witness :
  exists rs,
    scan ascii_only (lit "data") (Some tree_three) = Ok rs /\
    (List.length rs <= 3)%nat.
Proof.
  eexists. split; [reflexivity|].
  apply (@scan_records_are_of_visited_files ascii_only (lit "data") true
           [ (lit "123_2025-5-1.log", File (Ok 40%N));
             (lit "README.txt", File (Ok 7%N));
             (lit "9_2024-12.csv", File (Ok 12%N)) ]).
  reflexivity.
Defined.

Lemma scan_groups_are_sorted_witness :
  exists rs g,
    scan ascii_only (lit "data") (Some tree_twins) = Ok rs /\
    group_by_uid rs = Ok g /\
    forall u grp, dict_get str_eq_dec u g = Some grp ->
      Sorted name_le grp /\ Forall (fun m => uid m = u) grp.
Proof.
  eexists.
  destruct (@scan_groups_are_sorted ascii_only (lit "data")
              (Some tree_twins) _ eq_refl) as (g & Hg & Hs).
  exists g. split; [reflexivity|]. split; [exact Hg | exact Hs].
Defined.

Lemma padded_names_sort_by_date_witness :
  exists r1 r2,
    _parse_file ascii_only (lit "1_2025-09-01.log") (Ok 1%N)
      = Ok (Some r1) /\
    _parse_file ascii_only (lit "1_2025-10-01.log") (Ok 2%N)
      = Ok (Some r2) /\
    (name_le r1 r2 -> str_leb (date_str r1) (date_str r2) = true).
Proof.
  apply (proj1 (padded_names_sort_by_date ascii_only)
           (lit "1") (lit "2025") (lit "09") (lit "01") (lit "log")
           (lit "2025") (lit "10") (lit "01") (lit "log")
           (lit "1_2025-09-01.log") (lit "1_2025-10-01.log") 1%N 2%N);
    solve [reflexivity | discriminate].
Defined.

Lemma date_str_has_fixed_shape_witness :
  exists year mm,
    digits ascii_only year = true /\ List.length year = 4%nat /\
    ascii_digits mm = true /\ List.length mm = 2%nat /\
    ((lit "csv" = lit "log" /\
      exists dd, ascii_digits dd = true /\ List.length dd = 2%nat /\
        lit "2024-03" = year ++ ord "-" :: mm ++ ord "-" :: dd /\
        List.length (lit "2024-03") = 10%nat) \/
     (lit "csv" = lit "csv" /\
      lit "2024-03" = year ++ ord "-" :: mm /\
      List.length (lit "2024-03") = 7%nat)).
Proof.
  apply (@date_str_has_fixed_shape ascii_only (lit "out/9_2024-3.csv")
           (Ok 12%N)
           (mkFileMeta (lit "out/9_2024-3.csv") (lit "9_2024-3.csv")
              (lit "csv") (lit "9") (lit "2024-03") 12)).
  - intros c v H. discriminate H.
  - reflexivity.
Defined.

Lemma unmatched_name_no_record_witness :
  _parse_file ascii_only (lit "data/readme.txt") (Ok 7%N) = Ok None.
Proof.
  apply (@unmatched_name_no_record ascii_only (lit "data/readme.txt") 7%N).
  - intros (u & y & mo & d & ext & E & Hu & Hu0 & _).
    destruct u as [|c u]; [congruence|].
    injection E as <- _. discriminate Hu.
  - intros (u & y & mo & ext & E & Hu & Hu0 & _).
    destruct u as [|c u]; [congruence|].
    injection E as <- _. discriminate Hu.
  - intros [s' E].
    change (basename (lit "data/readme.txt"))
      with (lit "readme.tx" ++ [ord "t"]) in E.
    apply app_inj_tail in E as [_ E]. discriminate E.
Defined.

End ScannerMoreExamples.
